(** * QPriceAction: best entry price by annealing

    A shallow embedding of [best_price_entry_annealing.py]: the hardcoded
    price table and its signal columns, the builder of the binary quadratic
    model ([create_bqm]), the extraction of the selected buy prices
    ([get_optimal_buy_prices]) and the driver ([main]), followed by the
    properties the specification states about them.

    Prices are IEEE-754 binary64 numbers, as in Python: they are embedded as
    Rocq's primitive floats, so that a decimal literal such as [8.46] denotes
    the same double as in the script.  The module-level dataframe, the
    console and the file system form an explicit store threaded through a
    state-and-exception monad. *)

From Stdlib Require Import Floats DecimalString DecimalNat ZArith Ascii String.
From stdpp Require Import gmap strings list.

Set Warnings "-inexact-float".
Open Scope Z_scope.
Open Scope nat_scope.

(** ** The fragment of the Python runtime the script relies on *)

(** Built-in exceptions that the modelled operations can raise. *)
Inductive PyExn : Type :=
  | ValueError (msg : string)
  | IndexError (msg : string).

Definition exn_message (e : PyExn) : string :=
  match e with
  | ValueError msg => msg
  | IndexError msg => msg
  end.

(** The outcome of an expression: an exception or a value. *)
Definition Res (A : Type) : Type := (PyExn + A)%type.

(** [str(i)] and the [{i}] field of an f-string, for a non-negative [int]. *)
Definition str (i : nat) : string := NilZero.string_of_uint (Nat.to_uint i).

(** [needle in hay] on strings: [needle] occurs at some offset of [hay]. *)
Fixpoint str_contains (needle hay : string) : bool :=
  if String.prefix needle hay then true
  else match hay with
       | EmptyString => false
       | String _ rest => str_contains needle rest
       end.

(** [s.split(sep)] for a separator of length one: the maximal fields between
    occurrences of [sep], empty fields included. *)
Fixpoint py_split (sep : ascii) (s : string) : list string :=
  match s with
  | EmptyString => [EmptyString]
  | String c rest =>
      if Ascii.eqb c sep then EmptyString :: py_split sep rest
      else match py_split sep rest with
           | field :: fields => String c field :: fields
           | [] => [String c EmptyString]
           end
  end.

(** [l[i]] on a list, for a non-negative literal index. *)
Definition list_index {A} (l : list A) (i : nat) : Res A :=
  match l !! i with
  | Some x => inr x
  | None => inl (IndexError "list index out of range")
  end.

(** [int(s)] on a string of ASCII decimal digits with an optional leading
    minus sign.  CPython accepts besides a leading plus sign, surrounding
    white space and underscores between digits; those spellings are treated
    as errors here, and no name built by [create_bqm] uses them. *)
Definition py_int (s : string) : Res Z :=
  match NilZero.int_of_string s with
  | Some (Decimal.Pos d) => inr (Z.of_nat (Nat.of_uint d))
  | Some (Decimal.Neg d) => inr (- Z.of_nat (Nat.of_uint d))%Z
  | None => inl (ValueError ("invalid literal for int() with base 10: " +:+ s))
  end.

(** [min(l)]: the first element that no later element is strictly below;
    CPython replaces the running minimum by [item] when [item < minimum].
    The message of the error on an empty list is the one of CPython up to
    3.11; later versions word it differently. *)
Definition py_min (l : list float) : Res float :=
  match l with
  | [] => inl (ValueError "min() arg is an empty sequence")
  | x :: rest =>
      inr (fold_left (fun best item => if PrimFloat.ltb item best then item else best)
                     rest x)
  end.

(** [range(lo, hi)]. *)
Definition range (lo hi : nat) : list nat := seq lo (hi - lo).

(** ** The pandas dataframe *)

(** The frame of the script after line 25: four columns over one index. *)
Record DataFrame : Type := {
  Date : list string;
  Close : list float;
  Buy_Signal : list bool;
  Sell_Signal : list bool
}.

(** [len(df)]: the length of the index. *)
Definition len (d : DataFrame) : nat := length (Date d).

(** Every column of a frame has the length of its index. *)
Definition wf_df (d : DataFrame) : Prop :=
  length (Close d) = len d ∧
  length (Buy_Signal d) = len d ∧
  length (Sell_Signal d) = len d.

(** [col.iloc[i]]: positional access; a negative position counts from the
    end, a position outside the column raises [IndexError]. *)
Definition iloc {A} (col : list A) (i : Z) : Res A :=
  let n := Z.of_nat (length col) in
  let j := if (i <? 0)%Z then (i + n)%Z else i in
  if ((0 <=? j)%Z && (j <? n)%Z)%bool then
    match col !! Z.to_nat j with
    | Some x => inr x
    | None => inl (IndexError "single positional indexer is out-of-bounds")
    end
  else inl (IndexError "single positional indexer is out-of-bounds").

(** A cell of the exported table.  Floats are kept as numbers: their
    rendering as text is not modelled. *)
Inductive Cell : Type :=
  | CStr (s : string)
  | CFloat (x : float)
  | CBool (b : bool).

(** The rows [df.to_csv(path, index=False)] writes: the column names, then
    one row per position of the index, without the index itself. *)
Definition csv_header : list Cell :=
  [CStr "Date"; CStr "Close"; CStr "Buy_Signal"; CStr "Sell_Signal"].

Definition csv_row (d : DataFrame) (i : nat) : Res (list Cell) :=
  match Date d !! i, Close d !! i, Buy_Signal d !! i, Sell_Signal d !! i with
  | Some t, Some c, Some b, Some s => inr [CStr t; CFloat c; CBool b; CBool s]
  | _, _, _, _ => inl (IndexError "index out of bounds")
  end.

Fixpoint csv_rows (d : DataFrame) (idx : list nat) : Res (list (list Cell)) :=
  match idx with
  | [] => inr []
  | i :: rest =>
      match csv_row d i with
      | inl e => inl e
      | inr r => match csv_rows d rest with
                 | inl e => inl e
                 | inr rs => inr (r :: rs)
                 end
      end
  end.

Definition csv_table (d : DataFrame) : Res (list (list Cell)) :=
  match csv_rows d (range 0 (len d)) with
  | inl e => inl e
  | inr rows => inr (csv_header :: rows)
  end.

(** ** The store and the monad of the script *)

(** What the script prints. *)
Inductive Line : Type :=
  | OptimalBuyPrices (prices : list float)
  | OptimalEntryPrice (best : float)
  | SignalsSaved.

(** The module-level dataframe [df], the console, and the files written. *)
Record World : Type := {
  df : DataFrame;
  stdout : list Line;
  files : gmap string (list (list Cell))
}.

Definition M (A : Type) : Type := World → Res A * World.

Definition ret {A} (a : A) : M A := fun w => (inr a, w).

Definition bind {A B} (m : M A) (k : A → M B) : M B :=
  fun w => match m w with
           | (inl e, w') => (inl e, w')
           | (inr a, w') => k a w'
           end.

(** An expression that does not touch the store; it may raise. *)
Definition lift {A} (r : Res A) : M A := fun w => (r, w).

Declare Scope py_scope.
Delimit Scope py_scope with py.
Notation "x <- m ;; k" := (bind m (fun x => k))
  (at level 90, m at next level, right associativity) : py_scope.
Open Scope py_scope.

(** [for x in xs: body], threading the objects the body updates. *)
Fixpoint for_each {X A} (xs : list X) (body : X → A → M A) (a : A) : M A :=
  match xs with
  | [] => ret a
  | x :: rest => a' <- body x a ;; for_each rest body a'
  end.

(** [len(df)] and [df[col].iloc[i]] on the module-level frame. *)
Definition df_len : M nat := fun w => (inr (len (df w)), w).

Definition df_iloc {A} (col : DataFrame → list A) (i : Z) : M A :=
  fun w => (iloc (col (df w)) i, w).

(** [print(...)]. *)
Definition print (l : Line) : M unit :=
  fun w => (inr tt, {| df := df w; stdout := stdout w ++ [l]; files := files w |}).

(** [df.to_csv(path, index=False)]: the file at [path] is replaced. *)
Definition df_to_csv (path : string) : M unit :=
  fun w => match csv_table (df w) with
           | inl e => (inl e, w)
           | inr t => (inr tt, {| df := df w; stdout := stdout w;
                                  files := <[path := t]> (files w) |})
           end.

(** ** The binary quadratic model of dimod *)

(** A model over binary variables: a linear bias for every variable and a
    bias for every interaction, keyed by the labels of its two variables. *)
Record BQM : Type := {
  linear : gmap string float;
  quadratic : gmap (string * string) float
}.

(** [BinaryQuadraticModel.empty(vartype='BINARY')]. *)
Definition bqm_empty : BQM := {| linear := ∅; quadratic := ∅ |}.

(** [bqm.add_variable(v, bias)]: a new variable gets [bias]; the bias of a
    variable that is already in the model is increased by [bias]. *)
Definition add_variable (v : string) (bias : float) (b : BQM) : BQM :=
  {| linear := match linear b !! v with
               | Some old => <[v := (old + bias)%float]> (linear b)
               | None => <[v := bias]> (linear b)
               end;
     quadratic := quadratic b |}.

(** [bqm.add_interaction(u, v, bias)]: a self-loop is refused; variables that
    are not yet in the model enter it with a zero bias; the bias of the
    interaction, whichever way round it was stored, is increased by [bias]. *)
Definition add_interaction (u v : string) (bias : float) (b : BQM) : Res BQM :=
  if decide (u = v) then inl (ValueError "No self-loops allowed")
  else
    let with_var x (l : gmap string float) :=
      match l !! x with Some _ => l | None => <[x := 0%float]> l end in
    inr {| linear := with_var v (with_var u (linear b));
           quadratic :=
             match quadratic b !! (u, v), quadratic b !! (v, u) with
             | Some old, _ => <[(u, v) := (old + bias)%float]> (quadratic b)
             | None, Some old => <[(v, u) := (old + bias)%float]> (quadratic b)
             | None, None => <[(u, v) := bias]> (quadratic b)
             end |}.

(** A sample maps variable labels to values, in the order [sample.items()]
    yields them; a sample set is the sequence of (sample, energy) records in
    the order [response.data(['sample', 'energy'])] yields them. *)
Definition Sample : Type := list (string * Z).
Definition SampleSet : Type := list (Sample * float).

(** ** The script *)

(** Lines 11 to 16: the price table. *)
Definition data_Date : list string :=
  ["2024.03.05 16:45"; "2024.03.05 17:00"; "2024.03.05 17:15"; "2024.03.05 17:30";
   "2024.03.05 17:45"; "2024.03.05 18:00"; "2024.03.05 18:15"; "2024.03.05 18:30";
   "2024.03.05 18:45"; "2024.03.05 19:00"; "2024.03.05 19:15"; "2024.03.05 19:30";
   "2024.03.05 19:45"; "2024.03.05 20:00"]%string.

Definition data_Close : list float :=
  [8.94; 8.96; 8.55; 8.46; 8.49; 8.59; 8.53; 8.53; 8.71; 8.52; 8.47; 8.52;
   8.22; 8.56]%float.

(** Lines 24 and 25: the signal columns over an index of length [n]. *)
Definition buy_signals (n : nat) : list bool :=
  map (fun i => if decide (i mod 2 ≠ 0) then true else false) (range 0 n).

Definition sell_signals (n : nat) : list bool :=
  map (fun _ => false) (range 0 n).

(** Lines 19 to 25: [pd.DataFrame] refuses columns of different lengths; the
    two signal columns are then added over the index of the frame. *)
Definition make_df (dates : list string) (closes : list float) : Res DataFrame :=
  if decide (length dates = length closes) then
    inr {| Date := dates; Close := closes;
           Buy_Signal := buy_signals (length dates);
           Sell_Signal := sell_signals (length dates) |}
  else inl (ValueError "All arrays must be of the same length").

(** The module-level [df] of the script. *)
Definition script_df : DataFrame :=
  {| Date := data_Date; Close := data_Close;
     Buy_Signal := buy_signals (length data_Date);
     Sell_Signal := sell_signals (length data_Date) |}.

(** The store in which [main] starts. *)
Definition initial_world : World :=
  {| df := script_df; stdout := []; files := ∅ |}.

(** The labels [f'buy_{i}'] and [f'sell_{i}']. *)
Definition buy_name (i : nat) : string := "buy_" +:+ str i.
Definition sell_name (i : nat) : string := "sell_" +:+ str i.

(** Lines 28 to 55. *)
Definition create_bqm : M BQM :=
  n <- df_len ;;
  bqm <- for_each (range 1 n) (fun i bqm =>
    buy <- df_iloc Buy_Signal (Z.of_nat i) ;;
    bqm <- (if buy : bool then
              c <- df_iloc Close (Z.of_nat i) ;;
              ret (add_variable (buy_name i) (- c)%float bqm)
            else ret bqm) ;;
    sell <- df_iloc Sell_Signal (Z.of_nat i) ;;
    if sell : bool then
      c <- df_iloc Close (Z.of_nat i) ;;
      ret (add_variable (sell_name i) c bqm)
    else ret bqm) bqm_empty ;;
  n <- df_len ;;
  for_each (range 1 n) (fun i bqm =>
    buy <- df_iloc Buy_Signal (Z.of_nat i) ;;
    both <- (if buy : bool then df_iloc Sell_Signal (Z.of_nat i) else ret false) ;;
    if both : bool then lift (add_interaction (buy_name i) (sell_name i) 1%float bqm)
    else ret bqm) bqm.

(** Lines 77 to 99. *)
Definition get_optimal_buy_prices (response : SampleSet) : M (list float) :=
  for_each response (fun '(sample, energy) optimal_buy_prices =>
    for_each sample (fun '(key, value) optimal_buy_prices =>
      if (str_contains "buy_" key && (value =? 1)%Z)%bool then
        field <- lift (list_index (py_split "_" key) 1) ;;
        index <- lift (py_int field) ;;
        c <- df_iloc Close index ;;
        ret (optimal_buy_prices ++ [c])
      else ret optimal_buy_prices) optimal_buy_prices) [].

(** Lines 102 to 125, over the solver called at line 111: [solve_bqm] stands
    for the call to the sampling service, which either fails or returns a
    sample set. *)
Definition main (solve_bqm : BQM → Res SampleSet) : M unit :=
  bqm <- create_bqm ;;
  response <- lift (solve_bqm bqm) ;;
  optimal_buy_prices <- get_optimal_buy_prices response ;;
  _ <- print (OptimalBuyPrices optimal_buy_prices) ;;
  best_entry_price <- lift (py_min optimal_buy_prices) ;;
  _ <- print (OptimalEntryPrice best_entry_price) ;;
  _ <- df_to_csv "trading_signals.csv" ;;
  print SignalsSaved.

(** ** An exact solver in place of the sampling service *)

(** Modelled from the spec: the sampling service is outside the repository;
    the spec allows any exact solver in its place, "one that returns the
    minimum-energy assignment", the energy being "the objective's value under
    that assignment": the sum of the linear biases of the variables set to 1
    and of the biases of the interactions whose two variables are set to 1. *)
Definition variables (b : BQM) : list string := (map_to_list (linear b)).*1.

Definition sample_value (s : Sample) (v : string) : Z :=
  match find (fun kv => String.eqb kv.1 v) s with
  | Some kv => kv.2
  | None => 0%Z
  end.

Definition bit (z : Z) : float := if (z =? 1)%Z then 1%float else 0%float.

Definition energy (b : BQM) (s : Sample) : float :=
  let lin := fold_left (fun e '(v, bias) => (e + bias * bit (sample_value s v))%float)
                       (map_to_list (linear b)) 0%float in
  fold_left (fun e '((u, v), bias) =>
               (e + bias * (bit (sample_value s u) * bit (sample_value s v)))%float)
            (map_to_list (quadratic b)) lin.

(** Every assignment of 0 or 1 to the variables, in the order of the model. *)
Fixpoint all_assignments (vars : list string) : list Sample :=
  match vars with
  | [] => [[]]
  | v :: rest =>
      let tails := all_assignments rest in
      map (cons (v, 0%Z)) tails ++ map (cons (v, 1%Z)) tails
  end.

(** [s] is an assignment of least energy. *)
Definition minimum_energy (b : BQM) (s : Sample) : Prop :=
  s ∈ all_assignments (variables b) ∧
  Forall (fun s' => PrimFloat.leb (energy b s) (energy b s') = true)
         (all_assignments (variables b)).

(** The response of an exact solver: one record, holding an assignment of
    least energy and its energy. *)
Definition exact_response (b : BQM) (r : SampleSet) : Prop :=
  ∃ s, r = [(s, energy b s)] ∧ minimum_energy b s.

(** Exhaustive search: the scan starts from the assignment of 0 to every
    variable and moves to an assignment when its energy is strictly lower. *)
Definition exact_solve (b : BQM) : Res SampleSet :=
  let nothing := map (fun v => (v, 0%Z)) (variables b) in
  let best := fold_left (fun best s =>
                if (energy b s <? energy b best)%float then s else best)
                (all_assignments (variables b)) nothing in
  inr [(best, energy b best)].

(** The model the script builds from its own frame, and the assignment that
    selects every variable of a model. *)
Definition script_bqm : BQM :=
  match (create_bqm initial_world).1 with
  | inr b => b
  | inl _ => bqm_empty
  end.

Definition all_selected (b : BQM) : Sample := map (fun v => (v, 1%Z)) (variables b).

(** ** The typed reading of variables and samples used by the specification *)

(** A decision variable is keyed by a kind and an index. *)
Inductive Kind : Type := Buy | Sell.

Definition var_name (k : Kind) (i : nat) : string :=
  match k with
  | Buy => buy_name i
  | Sell => sell_name i
  end.

(** A solution over decision variables, and its rendering as the sample the
    solver returns for it. *)
Definition Solution : Type := (list (Kind * nat * Z) * float)%type.

Definition sample_of (a : list (Kind * nat * Z)) : Sample :=
  map (fun '(k, i, v) => (var_name k i, v)) a.

Definition response_of (sols : list Solution) : SampleSet :=
  map (fun '(a, e) => (sample_of a, e)) sols.

(** The specification of the result extractor, in its words: for every
    solution, for every assignment within it, if the kind is buy and the
    value is 1, the price at that index is appended. *)
Definition price_of_entry (closes : list float) (entry : Kind * nat * Z) : list float :=
  match entry with
  | (Buy, i, v) => if (v =? 1)%Z then option_list (closes !! i) else []
  | (Sell, _, _) => []
  end.

Definition selected_in (closes : list float) (sol : Solution) : list float :=
  flat_map (price_of_entry closes) sol.1.

Definition selected_prices (closes : list float) (sols : list Solution) : list float :=
  flat_map (selected_in closes) sols.

(** An entry selects a price: its kind is buy and its value is 1. *)
Definition entry_selected (entry : Kind * nat * Z) : bool :=
  match entry with
  | (Buy, _, v) => (v =? 1)%Z
  | (Sell, _, _) => false
  end.

Definition entry_index (entry : Kind * nat * Z) : nat := entry.1.2.

(** The buy variables assigned 1 are variables of a frame of length [n]. *)
Definition selected_in_frame (n : nat) (sols : list Solution) : Prop :=
  Forall (fun sol : Solution =>
    Forall (fun entry => entry_selected entry = true → entry_index entry < n) sol.1) sols.

(** No buy variable is assigned 1 in any solution. *)
Definition no_buy_selected (sols : list Solution) : Prop :=
  Forall (fun sol : Solution =>
    Forall (fun entry => entry_selected entry = false) sol.1) sols.

(** The error the specification asks for when nothing was selected. *)
Definition reports_no_optimal_buy_price {A} (r : Res A) : Prop :=
  ∃ e, r = inl e ∧
       str_contains "no optimal buy price found" (exn_message e) = true.

(** The linear biases a model holds once the buy branch was run on the
    indices [bought] and the sell branch on the indices [sold] of the frame
    [d]: the negated close under the buy label of every index flagged for
    buying, the close under the sell label of every index flagged for
    selling, and nothing else. *)
Definition biases_after (d : DataFrame) (bought sold : list nat)
    (l : gmap string float) : Prop :=
  ∀ k x, l !! k = Some x ↔
    (∃ i, i ∈ bought ∧ k = buy_name i ∧ Buy_Signal d !! i = Some true ∧
          ∃ c, Close d !! i = Some c ∧ x = (- c)%float) ∨
    (∃ i, i ∈ sold ∧ k = sell_name i ∧ Sell_Signal d !! i = Some true ∧
          Close d !! i = Some x).

Definition linear_after (d : DataFrame) (idx : list nat) (l : gmap string float) : Prop :=
  biases_after d idx idx l.

(** The interactions after the indices [idx] were visited: weight 1 between
    the buy and the sell label of every index flagged for both. *)
Definition quadratic_after (d : DataFrame) (idx : list nat)
    (q : gmap (string * string) float) : Prop :=
  ∀ u v x, q !! (u, v) = Some x ↔
    ∃ i, i ∈ idx ∧ u = buy_name i ∧ v = sell_name i ∧
         Buy_Signal d !! i = Some true ∧ Sell_Signal d !! i = Some true ∧
         x = 1%float.

(** A computation that only reads the frame [d]: from every store holding
    [d] it returns a value satisfying [Q] and leaves the store as it was. *)
Definition reading {A} (d : DataFrame) (m : M A) (Q : A → Prop) : Prop :=
  ∀ w, df w = d → ∃ a, m w = (inr a, w) ∧ Q a.

(** A computation that leaves every store unchanged, whatever it returns. *)
Definition pure_read {A} (m : M A) : Prop := ∀ w, (m w).2 = w.

(** No price is a NaN. *)
Definition no_nan (l : list float) : Prop := Forall (fun x => is_nan x = false) l.

(** Lines 94 to 97 on their own: what the inner loop of
    [get_optimal_buy_prices] does with one item of a sample. *)
Definition collect_key (item : string * Z) (optimal_buy_prices : list float)
    : M (list float) :=
  if (str_contains "buy_" item.1 && (item.2 =? 1)%Z)%bool then
    field <- lift (list_index (py_split "_" item.1) 1) ;;
    index <- lift (py_int field) ;;
    c <- df_iloc Close index ;;
    ret (optimal_buy_prices ++ [c])
  else ret optimal_buy_prices.

(** A loop body that only appends to the list it is given: run on [acc], it
    raises what it raises on the empty list, or returns [acc] followed by
    what it returns on the empty list. *)
Definition appends {X} (body : X → list float → M (list float)) : Prop :=
  ∀ x acc w,
    body x acc w = match body x [] w with
                   | (inl e, w') => (inl e, w')
                   | (inr l, w') => (inr (acc ++ l), w')
                   end.

(** What a run may change in the store, from [w] to [w']: the frame is the
    same, every file other than the export is the same, and the console
    holds what it held, followed by new lines. *)
Definition footprint (w w' : World) : Prop :=
  df w' = df w ∧
  (∀ path, path ≠ "trading_signals.csv"%string → files w' !! path = files w !! path) ∧
  ∃ out, stdout w' = stdout w ++ out.

Arguments str : simpl never.
Arguments buy_name : simpl never.
Arguments sell_name : simpl never.

(** * Properties *)

(** ** Labels: formatting and parsing *)

Section Labels.

Local Open Scope string_scope.

(** A string of decimal digits has a single field and no ['buy_'] in it. *)
Lemma split_digits (d : Decimal.uint) :
  py_split "_" (NilEmpty.string_of_uint d) = [NilEmpty.string_of_uint d].
Proof. induction d; simpl; try rewrite IHd; reflexivity. Qed.

Lemma contains_digits (d : Decimal.uint) :
  str_contains "buy_" (NilEmpty.string_of_uint d) = false.
Proof. induction d; simpl; try rewrite IHd; reflexivity. Qed.

Lemma to_uint_nonnil (i : nat) : Nat.to_uint i ≠ Decimal.Nil.
Proof.
  rewrite <- (DecimalNat.Unsigned.of_to i) at 1.
  rewrite DecimalNat.Unsigned.to_of. apply DecimalFacts.unorm_nonnil.
Qed.

Lemma str_digits (i : nat) : str i = NilEmpty.string_of_uint (Nat.to_uint i).
Proof.
  unfold str, NilZero.string_of_uint.
  pose proof (to_uint_nonnil i). destruct (Nat.to_uint i); congruence.
Qed.

Lemma py_int_str (i : nat) : py_int (str i) = inr (Z.of_nat i).
Proof.
  unfold py_int, str.
  change (NilZero.string_of_uint (Nat.to_uint i))
    with (NilZero.string_of_int (Decimal.Pos (Nat.to_uint i))).
  pose proof (to_uint_nonnil i).
  rewrite NilZero.isi by congruence.
  by rewrite DecimalNat.Unsigned.of_to.
Qed.

Lemma str_inj (i j : nat) : str i = str j → i = j.
Proof.
  intros E. pose proof (py_int_str i) as Hi. rewrite E, py_int_str in Hi.
  injection Hi. lia.
Qed.

Lemma buy_name_chars (i : nat) :
  buy_name i = String "b" (String "u" (String "y" (String "_" (str i)))).
Proof. reflexivity. Qed.

Lemma sell_name_chars (i : nat) :
  sell_name i = String "s" (String "e" (String "l" (String "l" (String "_" (str i))))).
Proof. reflexivity. Qed.

Lemma buy_name_inj (i j : nat) : buy_name i = buy_name j → i = j.
Proof. rewrite !buy_name_chars. intros [= E]. by apply str_inj. Qed.

Lemma sell_name_inj (i j : nat) : sell_name i = sell_name j → i = j.
Proof. rewrite !sell_name_chars. intros [= E]. by apply str_inj. Qed.

Lemma buy_sell_distinct (i j : nat) : buy_name i ≠ sell_name j.
Proof. rewrite buy_name_chars, sell_name_chars. discriminate. Qed.

Lemma split_buy_name (i : nat) : py_split "_" (buy_name i) = ["buy"; str i].
Proof. rewrite buy_name_chars, str_digits. simpl. by rewrite split_digits. Qed.

Lemma split_sell_name (i : nat) : py_split "_" (sell_name i) = ["sell"; str i].
Proof. rewrite sell_name_chars, str_digits. simpl. by rewrite split_digits. Qed.

Lemma contains_buy_name (i : nat) : str_contains "buy_" (buy_name i) = true.
Proof. rewrite buy_name_chars. simpl. by destruct (str i). Qed.

Lemma contains_sell_name (i : nat) : str_contains "buy_" (sell_name i) = false.
Proof. rewrite sell_name_chars, str_digits. simpl. apply contains_digits. Qed.

End Labels.

(** C10. The label of a variable decodes to its index, and the test
    ['buy_' in key] separates the two kinds: for every index [i], splitting
    the label on ['_'] and reading its second field as an integer gives [i]
    back, and among the labels the builder can make, the test holds of the
    buy labels and of no sell label. *)
Theorem label_round_trip (k : Kind) (i : nat) (w : World) :
  (field <- lift (list_index (py_split "_" (var_name k i)) 1) ;; lift (py_int field)) w
    = (inr (Z.of_nat i), w) ∧
  (str_contains "buy_" (var_name k i) = true ↔ k = Buy).
Proof.
  split.
  - assert (E : list_index (py_split "_" (var_name k i)) 1 = inr (str i))
      by (destruct k; unfold var_name; [rewrite split_buy_name | rewrite split_sell_name];
          reflexivity).
    unfold bind, lift. by rewrite E, py_int_str.
  - destruct k; unfold var_name.
    + by rewrite contains_buy_name.
    + rewrite contains_sell_name. split; discriminate.
Qed.

(** ** Rules for computations that read the frame *)

Lemma iloc_lookup {A} (col : list A) (i : nat) (x : A) :
  col !! i = Some x → iloc col (Z.of_nat i) = inr x.
Proof.
  intros H. pose proof (lookup_lt_Some _ _ _ H) as Hlt. unfold iloc.
  destruct (Z.ltb_spec (Z.of_nat i) 0); [lia |].
  destruct (Z.leb_spec 0 (Z.of_nat i)); [| lia].
  destruct (Z.ltb_spec (Z.of_nat i) (Z.of_nat (length col))); [| lia].
  simpl. by rewrite Nat2Z.id, H.
Qed.

Section Reading.

Context (d : DataFrame).

Lemma reading_ret {A} (a : A) (Q : A → Prop) : Q a → reading d (ret a) Q.
Proof. intros HQ w _. by exists a. Qed.

Lemma reading_lift {A} (a : A) (Q : A → Prop) : Q a → reading d (lift (inr a)) Q.
Proof. intros HQ w _. by exists a. Qed.

Lemma reading_bind {A B} (m : M A) (k : A → M B) (Q1 : A → Prop) (Q2 : B → Prop) :
  reading d m Q1 → (∀ a, Q1 a → reading d (k a) Q2) → reading d (bind m k) Q2.
Proof.
  intros Hm Hk w Hw. destruct (Hm w Hw) as (a & Ea & Ha).
  destruct (Hk a Ha w Hw) as (b & Eb & Hb).
  exists b. unfold bind. by rewrite Ea.
Qed.

Lemma reading_conseq {A} (m : M A) (Q Q' : A → Prop) :
  reading d m Q → (∀ a, Q a → Q' a) → reading d m Q'.
Proof. intros Hm HQ w Hw. destruct (Hm w Hw) as (a & ? & ?). exists a. auto. Qed.

Lemma reading_len (Q : nat → Prop) : Q (len d) → reading d df_len Q.
Proof. intros HQ w Hw. exists (len d). unfold df_len. by rewrite Hw. Qed.

Lemma reading_iloc {A} (col : DataFrame → list A) (i : nat) (x : A) (Q : A → Prop) :
  col d !! i = Some x → Q x → reading d (df_iloc col (Z.of_nat i)) Q.
Proof.
  intros Hx HQ w Hw. exists x. unfold df_iloc.
  by rewrite Hw, (iloc_lookup _ _ _ Hx).
Qed.

(** The loop rule: [I pre a] holds of the objects [a] once the items [pre]
    were visited. *)
Lemma reading_for_each_from {X A} (body : X → A → M A) (I : list X → A → Prop)
    (pre xs : list X) (a : A) :
  I pre a →
  (∀ p x q a, pre ++ xs = p ++ x :: q → I p a → reading d (body x a) (I (p ++ [x]))) →
  reading d (for_each xs body a) (I (pre ++ xs)).
Proof.
  revert pre a. induction xs as [| x xs IH]; intros pre a Ha Hstep; simpl.
  - rewrite app_nil_r. by apply reading_ret.
  - eapply reading_bind; [by apply (Hstep pre x xs) |].
    intros a' Ha'. rewrite (cons_middle x pre xs), app_assoc.
    apply IH; [done |]. intros p y q b E Hb. apply (Hstep p y q); [| done].
    by rewrite <- E, <- app_assoc.
Qed.

Lemma reading_for_each {X A} (body : X → A → M A) (I : list X → A → Prop)
    (xs : list X) (a : A) :
  I [] a →
  (∀ p x q a, xs = p ++ x :: q → I p a → reading d (body x a) (I (p ++ [x]))) →
  reading d (for_each xs body a) (I xs).
Proof. intros. by apply (reading_for_each_from body I [] xs). Qed.

End Reading.

(** Positions of [range 1 n] lie inside a frame of length [n], and a position
    does not come twice. *)
Lemma range_split (lo hi : nat) (p q : list nat) (i : nat) :
  range lo hi = p ++ i :: q → lo ≤ i < hi ∧ i ∉ p.
Proof.
  unfold range. intros E. split.
  - assert (Hi : i ∈ seq lo (hi - lo)).
    { rewrite E. apply elem_of_app. right. apply elem_of_cons. by left. }
    apply elem_of_seq in Hi. lia.
  - pose proof (NoDup_seq lo (hi - lo)) as Hnd. rewrite E in Hnd.
    apply NoDup_app in Hnd as (_ & Hnd & _). intros Hp.
    apply (Hnd i Hp). apply elem_of_cons. by left.
Qed.

Lemma wf_lookup (d : DataFrame) (i : nat) :
  wf_df d → i < len d →
  ∃ c b s, Close d !! i = Some c ∧ Buy_Signal d !! i = Some b ∧
           Sell_Signal d !! i = Some s.
Proof.
  intros (Hc & Hb & Hs) Hi.
  destruct (lookup_lt_is_Some_2 (Close d) i) as [c ?]; [lia |].
  destruct (lookup_lt_is_Some_2 (Buy_Signal d) i) as [b ?]; [lia |].
  destruct (lookup_lt_is_Some_2 (Sell_Signal d) i) as [sl ?]; [lia |].
  by exists c, b, sl.
Qed.

(** ** The model builder *)

Lemma elem_snoc_l {A} (j i : A) (l : list A) : j ∈ l → j ∈ l ++ [i].
Proof. intros. apply elem_of_app. by left. Qed.

Lemma elem_snoc_here {A} (i : A) (l : list A) : i ∈ l ++ [i].
Proof. apply elem_of_app. right. by apply list_elem_of_singleton. Qed.

Lemma elem_snoc_inv {A} (j i : A) (l : list A) : j ∈ l ++ [i] → j ∈ l ∨ j = i.
Proof. rewrite elem_of_app, list_elem_of_singleton. tauto. Qed.

Section Builder.

Context (d : DataFrame).

Lemma biases_fresh_buy B S l i :
  biases_after d B S l → i ∉ B → l !! buy_name i = None.
Proof.
  intros H Hi. destruct (l !! buy_name i) as [x |] eqn:E; [| done].
  apply H in E as [(j & Hj & En & _) | (j & _ & En & _)].
  - apply buy_name_inj in En. by subst.
  - by apply buy_sell_distinct in En.
Qed.

Lemma biases_fresh_sell B S l i :
  biases_after d B S l → i ∉ S → l !! sell_name i = None.
Proof.
  intros H Hi. destruct (l !! sell_name i) as [x |] eqn:E; [| done].
  apply H in E as [(j & _ & En & _) | (j & Hj & En & _)].
  - symmetry in En. by apply buy_sell_distinct in En.
  - apply sell_name_inj in En. by subst.
Qed.

Lemma biases_add_buy B S b i c :
  biases_after d B S (linear b) → i ∉ B →
  Buy_Signal d !! i = Some true → Close d !! i = Some c →
  biases_after d (B ++ [i]) S (linear (add_variable (buy_name i) (- c)%float b)).
Proof.
  intros H Hi Hb Hc. unfold add_variable; simpl.
  rewrite (biases_fresh_buy _ _ _ _ H Hi).
  intros k x. destruct (decide (k = buy_name i)) as [-> | Hk].
  - rewrite lookup_insert_eq. split.
    + intros [= <-]. left. exists i. split; [apply elem_snoc_here |]. eauto.
    + intros [(j & _ & En & _ & c' & Hc' & ->) | (j & _ & En & _)].
      * apply buy_name_inj in En; subst j. congruence.
      * by apply buy_sell_distinct in En.
  - rewrite lookup_insert_ne by done. rewrite (H k x). split.
    + intros [(j & Hj & ?) | ?]; [| by right].
      left. exists j. split; [by apply elem_snoc_l | done].
    + intros [(j & Hj & En & ?) | ?]; [| by right].
      left. exists j. split; [| done].
      apply elem_snoc_inv in Hj as [? | ->]; done.
Qed.

Lemma biases_skip_buy B S l i :
  biases_after d B S l → Buy_Signal d !! i = Some false →
  biases_after d (B ++ [i]) S l.
Proof.
  intros H Hb k x. rewrite (H k x). split.
  - intros [(j & Hj & ?) | ?]; [| by right].
    left. exists j. split; [by apply elem_snoc_l | done].
  - intros [(j & Hj & En & Hj' & ?) | ?]; [| by right].
    left. exists j. split; [| done].
    apply elem_snoc_inv in Hj as [? | ->]; [done | congruence].
Qed.

Lemma biases_add_sell B S b i c :
  biases_after d B S (linear b) → i ∉ S →
  Sell_Signal d !! i = Some true → Close d !! i = Some c →
  biases_after d B (S ++ [i]) (linear (add_variable (sell_name i) c b)).
Proof.
  intros H Hi Hb Hc. unfold add_variable; simpl.
  rewrite (biases_fresh_sell _ _ _ _ H Hi).
  intros k x. destruct (decide (k = sell_name i)) as [-> | Hk].
  - rewrite lookup_insert_eq. split.
    + intros [= <-]. right. exists i. split; [apply elem_snoc_here |]. eauto.
    + intros [(j & _ & En & _) | (j & _ & En & _ & Hc')].
      * symmetry in En. by apply buy_sell_distinct in En.
      * apply sell_name_inj in En; subst j. congruence.
  - rewrite lookup_insert_ne by done. rewrite (H k x). split.
    + intros [? | (j & Hj & ?)]; [by left |].
      right. exists j. split; [by apply elem_snoc_l | done].
    + intros [? | (j & Hj & En & ?)]; [by left |].
      right. exists j. split; [| done].
      apply elem_snoc_inv in Hj as [? | ->]; done.
Qed.

Lemma biases_skip_sell B S l i :
  biases_after d B S l → Sell_Signal d !! i = Some false →
  biases_after d B (S ++ [i]) l.
Proof.
  intros H Hb k x. rewrite (H k x). split.
  - intros [? | (j & Hj & ?)]; [by left |].
    right. exists j. split; [by apply elem_snoc_l | done].
  - intros [? | (j & Hj & En & Hj' & ?)]; [by left |].
    right. exists j. split; [| done].
    apply elem_snoc_inv in Hj as [? | ->]; [done | congruence].
Qed.

Lemma biases_empty : biases_after d [] [] ∅.
Proof.
  intros k x. rewrite lookup_empty. split; [done |].
  intros [(j & Hj & _) | (j & Hj & _)]; by apply elem_of_nil in Hj.
Qed.

Lemma quadratic_skip P q i :
  quadratic_after d P q →
  Buy_Signal d !! i = Some false ∨ Sell_Signal d !! i = Some false →
  quadratic_after d (P ++ [i]) q.
Proof.
  intros H Hflag u v x. rewrite (H u v x). split.
  - intros (j & Hj & ?). exists j. split; [by apply elem_snoc_l | done].
  - intros (j & Hj & Eu & Ev & Hb & Hs & ?). exists j. split; [| done].
    apply elem_snoc_inv in Hj as [? | ->]; [done |].
    destruct Hflag; congruence.
Qed.

Lemma add_interaction_spec idx P b i c :
  linear_after d idx (linear b) → i ∈ idx →
  quadratic_after d P (quadratic b) → i ∉ P →
  Buy_Signal d !! i = Some true → Sell_Signal d !! i = Some true →
  Close d !! i = Some c →
  ∃ b', add_interaction (buy_name i) (sell_name i) 1%float b = inr b' ∧
        linear b' = linear b ∧ quadratic_after d (P ++ [i]) (quadratic b').
Proof.
  intros Hl Hi Hq HP Hb Hs Hc. unfold add_interaction.
  destruct (decide (buy_name i = sell_name i)) as [E | _];
    [by apply buy_sell_distinct in E |].
  assert (Hbuy : linear b !! buy_name i = Some (- c)%float).
  { apply Hl. left. exists i. eauto 10. }
  assert (Hsell : linear b !! sell_name i = Some c).
  { apply Hl. right. exists i. eauto 10. }
  assert (Hnew : quadratic b !! (buy_name i, sell_name i) = None).
  { destruct (quadratic b !! (buy_name i, sell_name i)) as [x |] eqn:E; [| done].
    apply Hq in E as (j & Hj & En & _). apply buy_name_inj in En. by subst. }
  assert (Hrev : quadratic b !! (sell_name i, buy_name i) = None).
  { destruct (quadratic b !! (sell_name i, buy_name i)) as [x |] eqn:E; [| done].
    apply Hq in E as (j & _ & En & _). symmetry in En.
    by apply buy_sell_distinct in En. }
  eexists. split; [reflexivity |]. simpl. rewrite Hbuy, Hsell, Hnew, Hrev.
  split; [done |]. intros u v x.
  destruct (decide ((u, v) = (buy_name i, sell_name i))) as [[= -> ->] | Hk].
  - rewrite lookup_insert_eq. split.
    + intros [= <-]. exists i. split; [apply elem_snoc_here | done].
    + by intros (j & _ & _ & _ & _ & _ & ->).
  - rewrite lookup_insert_ne by done. rewrite (Hq u v x). split.
    + intros (j & Hj & ?). exists j. split; [by apply elem_snoc_l | done].
    + intros (j & Hj & Eu & Ev & ?). exists j. split; [| done].
      apply elem_snoc_inv in Hj as [? | ->]; [done |]. by subst.
Qed.

Lemma quadratic_empty : quadratic_after d [] ∅.
Proof.
  intros u v x. rewrite lookup_empty. split; [done |].
  intros (j & Hj & _). by apply elem_of_nil in Hj.
Qed.

(** The builder succeeds on every well-formed frame, reads it only, and
    returns the model with exactly the biases and interactions of the
    flagged indices from 1 on. *)
Lemma create_bqm_spec :
  wf_df d →
  reading d create_bqm (fun b =>
    linear_after d (range 1 (len d)) (linear b) ∧
    quadratic_after d (range 1 (len d)) (quadratic b)).
Proof.
  intros Hwf. unfold create_bqm.
  apply reading_bind with (Q1 := eq (len d)); [by apply reading_len |].
  intros ? <-.
  apply reading_bind with
    (Q1 := fun b => linear_after d (range 1 (len d)) (linear b) ∧ quadratic b = ∅).
  { apply (reading_for_each d _
             (fun pre b => linear_after d pre (linear b) ∧ quadratic b = ∅)).
    { split; [apply biases_empty | done]. }
    intros p i q b E [Hl Hq]. apply range_split in E as [Hi Hp].
    destruct (wf_lookup d i Hwf) as (c & bu & se & Hc & Hb & Hs); [lia |].
    apply reading_bind with (Q1 := eq bu); [by apply (reading_iloc d _ i bu) |].
    intros ? <-.
    apply reading_bind with
      (Q1 := fun b' => biases_after d (p ++ [i]) p (linear b') ∧ quadratic b' = ∅).
    { destruct bu.
      - apply reading_bind with (Q1 := eq c); [by apply (reading_iloc d _ i c) |].
        intros ? <-. apply reading_ret. split; [by apply biases_add_buy | done].
      - apply reading_ret. split; [by apply biases_skip_buy | done]. }
    intros b' [Hl' Hq'].
    apply reading_bind with (Q1 := eq se); [by apply (reading_iloc d _ i se) |].
    intros ? <-. destruct se.
    - apply reading_bind with (Q1 := eq c); [by apply (reading_iloc d _ i c) |].
      intros ? <-. apply reading_ret. split; [by apply biases_add_sell | done].
    - apply reading_ret. split; [by apply biases_skip_sell | done]. }
  intros b1 [Hl1 Hq1].
  apply reading_bind with (Q1 := eq (len d)); [by apply reading_len |].
  intros ? <-.
  eapply reading_conseq.
  { apply (reading_for_each d _
             (fun pre b => linear b = linear b1 ∧ quadratic_after d pre (quadratic b))).
    { split; [done |]. rewrite Hq1. apply quadratic_empty. }
    intros p i q b E [Hl Hq]. pose proof E as E'. apply range_split in E as [Hi Hp].
    destruct (wf_lookup d i Hwf) as (c & bu & se & Hc & Hb & Hs); [lia |].
    apply reading_bind with (Q1 := eq bu); [by apply (reading_iloc d _ i bu) |].
    intros ? <-.
    apply reading_bind with (Q1 := eq (bu && se)).
    { destruct bu; [by apply (reading_iloc d _ i se) | by apply reading_ret]. }
    intros ? <-.
    destruct bu; simpl.
    - destruct se.
      + destruct (add_interaction_spec (range 1 (len d)) p b i c)
          as (b' & Eb & El & Eq); try done.
        { by rewrite Hl. }
        { rewrite E'. apply elem_of_app. right. apply elem_of_cons. by left. }
        rewrite Eb. apply reading_lift. split; [congruence | done].
      + apply reading_ret. split; [done |]. apply quadratic_skip; auto.
    - apply reading_ret. split; [done |]. apply quadratic_skip; auto. }
  intros b [El Hq]. split; [by rewrite El | done].
Qed.

End Builder.

(** ** The default signal rule *)

Lemma odd_mod2 (i : nat) : Nat.Odd i ↔ i mod 2 ≠ 0.
Proof.
  rewrite <- Nat.odd_spec, <- Nat.bit0_mod, Nat.bit0_odd.
  destruct (Nat.odd i); simpl; split; (done || lia).
Qed.

Lemma buy_signals_lookup (n i : nat) (b : bool) :
  buy_signals n !! i = Some b ↔ i < n ∧ (b = true ↔ Nat.Odd i).
Proof.
  unfold buy_signals, range. rewrite Nat.sub_0_r, list_lookup_fmap.
  destruct (decide (i < n)) as [Hi | Hi].
  - rewrite lookup_seq_lt by done. cbn -[Nat.modulo]. rewrite odd_mod2.
    destruct (decide (i mod 2 ≠ 0)) as [Hm | Hm]; split.
    + intros [= <-]. split; [done |]. by split.
    + intros [_ [_ Hb]]. f_equal. symmetry. by apply Hb.
    + intros [= <-]. split; [done |]. split; [done | by intros ?].
    + intros [_ [Hb _]]. destruct b; [| done]. exfalso. by apply Hm, Hb.
  - rewrite lookup_seq_ge by lia. simpl. split; [done | by intros [? _]].
Qed.

Lemma sell_signals_lookup (n i : nat) (b : bool) :
  sell_signals n !! i = Some b ↔ i < n ∧ b = false.
Proof.
  unfold sell_signals, range. rewrite Nat.sub_0_r, list_lookup_fmap.
  destruct (decide (i < n)) as [Hi | Hi].
  - rewrite lookup_seq_lt by done. simpl.
    split; [by intros [= <-] | by intros [_ ->]].
  - rewrite lookup_seq_ge by lia. simpl. split; [done | by intros [? _]].
Qed.

Lemma make_df_inv (dates : list string) (closes : list float) (d : DataFrame) :
  make_df dates closes = inr d →
  wf_df d ∧ Date d = dates ∧ Close d = closes ∧ len d = length closes ∧
  Buy_Signal d = buy_signals (length closes) ∧
  Sell_Signal d = sell_signals (length closes).
Proof.
  unfold make_df. destruct (decide (length dates = length closes)) as [E |]; [| done].
  intros [= <-]. unfold wf_df, len, buy_signals, sell_signals, range. simpl.
  rewrite E, !length_map, !length_seq, Nat.sub_0_r. done.
Qed.

Lemma range_elem (lo hi i : nat) : i ∈ range lo hi ↔ lo ≤ i < hi.
Proof. unfold range. rewrite elem_of_seq. lia. Qed.

(** C2. Under the default signal rule, for every price series of length [N]
    the builder creates the variable [(buy, i)] if and only if [i] is odd and
    [1 ≤ i < N], and it creates no sell variable: every label of the model is
    a buy label. *)
Theorem default_rule_buy_variables
    (dates : list string) (closes : list float) (d : DataFrame) (w : World) :
  make_df dates closes = inr d → df w = d →
  ∃ b, create_bqm w = (inr b, w) ∧
    (∀ i, is_Some (linear b !! buy_name i) ↔ Nat.Odd i ∧ 1 ≤ i < length closes) ∧
    (∀ i, linear b !! sell_name i = None) ∧
    (∀ k, is_Some (linear b !! k) → ∃ i, k = buy_name i).
Proof.
  intros Hmk Hw. apply make_df_inv in Hmk as (Hwf & _ & Hc & Hlen & Hb & Hs).
  destruct (create_bqm_spec d Hwf w Hw) as (b & Eb & Hl & _).
  exists b. split; [done |]. rewrite Hlen in Hl.
  assert (Hsell : ∀ k x, linear b !! k = Some x → ∃ i, k = buy_name i).
  { intros k x Hk. apply Hl in Hk as [(i & _ & -> & _) | (i & _ & _ & Hsi & _)].
    - by exists i.
    - rewrite Hs in Hsi. by apply sell_signals_lookup in Hsi as [_ ?]. }
  split; [| split].
  - intros i. split.
    + intros [x Hx]. apply Hl in Hx as [(j & Hj & En & Hbj & _) | (j & _ & En & _)].
      * apply buy_name_inj in En as <-. apply range_elem in Hj.
        rewrite Hb in Hbj. apply buy_signals_lookup in Hbj as [_ Hodd].
        split; [by apply Hodd | done].
      * by apply buy_sell_distinct in En.
    + intros [Hodd Hi]. rewrite <- Hc in Hi.
      destruct (lookup_lt_is_Some_2 (Close d) i) as [c Hci]; [lia |].
      exists (- c)%float. apply Hl. left. exists i. rewrite Hc in Hi.
      split; [by apply range_elem |]. split; [done |].
      split; [| by exists c]. rewrite Hb. apply buy_signals_lookup.
      split; [lia | done].
  - intros i. destruct (linear b !! sell_name i) as [x |] eqn:E; [| done].
    apply Hsell in E as [j E]. symmetry in E. by apply buy_sell_distinct in E.
  - intros k [x Hx]. by apply (Hsell k x).
Qed.

Lemma default_rule_buy_variables_witness :
  ∃ b, create_bqm initial_world = (inr b, initial_world) ∧
    (∀ i, is_Some (linear b !! buy_name i) ↔ Nat.Odd i ∧ 1 ≤ i < length data_Close) ∧
    (∀ i, linear b !! sell_name i = None) ∧
    (∀ k, is_Some (linear b !! k) → ∃ i, k = buy_name i).
Proof.
  apply (default_rule_buy_variables data_Date data_Close script_df initial_world);
    reflexivity.
Defined.


Lemma wf_script_df : wf_df script_df.
Proof. by repeat split. Qed.


(** C7. Under the default signal rule the model has no interaction term,
    whatever the price series: no index is flagged for both buying and
    selling, so the branch adding the interaction of weight 1.0 is never
    taken. *)
Theorem default_rule_no_interaction
    (dates : list string) (closes : list float) (d : DataFrame) (w : World) :
  make_df dates closes = inr d → df w = d →
  (∀ i, ¬ (Buy_Signal d !! i = Some true ∧ Sell_Signal d !! i = Some true)) ∧
  ∃ b, create_bqm w = (inr b, w) ∧ quadratic b = ∅.
Proof.
  intros Hmk Hw. apply make_df_inv in Hmk as (Hwf & _ & _ & _ & _ & Hs).
  assert (Hnever : ∀ i, Sell_Signal d !! i ≠ Some true).
  { intros i Hi. rewrite Hs in Hi. by apply sell_signals_lookup in Hi as [_ ?]. }
  split; [intros i [_ Hi]; by apply (Hnever i) |].
  destruct (create_bqm_spec d Hwf w Hw) as (b & Eb & _ & Hq).
  exists b. split; [done |]. apply map_eq. intros [u v]. rewrite lookup_empty.
  destruct (quadratic b !! (u, v)) as [x |] eqn:E; [| done].
  apply Hq in E as (i & _ & _ & _ & _ & Hi & _). by apply Hnever in Hi.
Qed.

Lemma default_rule_no_interaction_witness :
  (∀ i, ¬ (Buy_Signal script_df !! i = Some true ∧
           Sell_Signal script_df !! i = Some true)) ∧
  ∃ b, create_bqm initial_world = (inr b, initial_world) ∧ quadratic b = ∅.
Proof.
  apply (default_rule_no_interaction data_Date data_Close script_df initial_world);
    reflexivity.
Defined.

(** C8. Whatever the flags at index 0, the builder creates no variable for
    index 0: no label of index 0, of either kind, has a linear bias or takes
    part in an interaction.  This holds for a frame of any length, those of
    length at least 2 included. *)
Theorem index_zero_skipped (d : DataFrame) (w : World) :
  wf_df d → df w = d →
  ∃ b, create_bqm w = (inr b, w) ∧
    ∀ k, linear b !! var_name k 0 = None ∧
         ∀ u, quadratic b !! (var_name k 0, u) = None ∧
              quadratic b !! (u, var_name k 0) = None.
Proof.
  intros Hwf Hw. destruct (create_bqm_spec d Hwf w Hw) as (b & Eb & Hl & Hq).
  exists b. split; [done |].
  assert (Hno : ∀ i, i ∈ range 1 (len d) → i ≠ 0)
    by (intros i Hi; apply range_elem in Hi; lia).
  assert (Hname : ∀ k i, i ∈ range 1 (len d) →
            var_name k 0 ≠ buy_name i ∧ var_name k 0 ≠ sell_name i).
  { intros k i Hi. apply Hno in Hi.
    destruct k; simpl; split; intros E;
      first [ by apply buy_name_inj in E
            | by apply sell_name_inj in E
            | by apply buy_sell_distinct in E
            | symmetry in E; by apply buy_sell_distinct in E ]. }
  intros k. split; [| intros u; split].
  - destruct (linear b !! var_name k 0) as [x |] eqn:E; [| done].
    apply Hl in E as [(i & Hi & En & _) | (i & Hi & En & _)];
      by destruct (Hname k i Hi).
  - destruct (quadratic b !! (var_name k 0, u)) as [x |] eqn:E; [| done].
    apply Hq in E as (i & Hi & En & _). by destruct (Hname k i Hi).
  - destruct (quadratic b !! (u, var_name k 0)) as [x |] eqn:E; [| done].
    apply Hq in E as (i & Hi & _ & En & _). by destruct (Hname k i Hi).
Qed.

Lemma index_zero_skipped_witness :
  let d := {| Date := ["2024.03.05 16:45"; "2024.03.05 17:00"]%string;
              Close := [8.94; 8.96]%float;
              Buy_Signal := [true; true]; Sell_Signal := [true; false] |} in
  let w := {| df := d; stdout := []; files := ∅ |} in
  ∃ b, create_bqm w = (inr b, w) ∧
    ∀ k, linear b !! var_name k 0 = None ∧
         ∀ u, quadratic b !! (var_name k 0, u) = None ∧
              quadratic b !! (u, var_name k 0) = None.
Proof.
  intros d w. apply (index_zero_skipped d w); [by repeat split | reflexivity].
Defined.

(** ** The frame is only read *)

Section PureRead.

Lemma pure_read_ret {A} (a : A) : pure_read (ret a).
Proof. by intros w. Qed.

Lemma pure_read_lift {A} (r : Res A) : pure_read (lift r).
Proof. by intros w. Qed.

Lemma pure_read_len : pure_read df_len.
Proof. by intros w. Qed.

Lemma pure_read_iloc {A} (col : DataFrame → list A) (i : Z) : pure_read (df_iloc col i).
Proof. by intros w. Qed.

Lemma pure_read_bind {A B} (m : M A) (k : A → M B) :
  pure_read m → (∀ a, pure_read (k a)) → pure_read (bind m k).
Proof.
  intros Hm Hk w. unfold bind. specialize (Hm w).
  destruct (m w) as [[e | a] w']; simpl in Hm; subst w'; [done | apply Hk].
Qed.

Lemma pure_read_for_each {X A} (xs : list X) (body : X → A → M A) (a : A) :
  (∀ x a, pure_read (body x a)) → pure_read (for_each xs body a).
Proof.
  intros Hbody. revert a. induction xs as [| x xs IH]; intros a; simpl.
  - apply pure_read_ret.
  - apply pure_read_bind; [apply Hbody | apply IH].
Qed.

End PureRead.

Ltac solve_pure_read :=
  repeat first
    [ apply pure_read_ret | apply pure_read_lift | apply pure_read_len
    | apply pure_read_iloc
    | apply pure_read_bind; [| intros ?]
    | apply pure_read_for_each; intros ? ?
    | match goal with
      | |- pure_read (if ?c then _ else _) => destruct c
      | |- pure_read (match ?p with (_, _) => _ end) => destruct p
      | |- pure_read (let (_, _) := ?p in _) => destruct p
      | |- pure_read ((let (_, _) := ?p in _) _) => destruct p
      end ].

Lemma pure_read_create_bqm : pure_read create_bqm.
Proof. unfold create_bqm. solve_pure_read. Qed.

Lemma pure_read_get_optimal_buy_prices (response : SampleSet) :
  pure_read (get_optimal_buy_prices response).
Proof. unfold get_optimal_buy_prices. solve_pure_read. Qed.

(** C9. The builder and the extractor leave the dataframe as it was: after
    [create_bqm], after [get_optimal_buy_prices], and after one following the
    other, every timestamp, close price and signal flag of the frame has the
    value it had before, whether the call returned or raised. *)
Theorem dataframe_unchanged (response : SampleSet) (w : World) :
  df (create_bqm w).2 = df w ∧
  df (get_optimal_buy_prices response w).2 = df w ∧
  df ((bqm <- create_bqm ;; get_optimal_buy_prices response) w).2 = df w.
Proof.
  split; [| split]; f_equal.
  - apply pure_read_create_bqm.
  - apply pure_read_get_optimal_buy_prices.
  - apply pure_read_bind; [apply pure_read_create_bqm |].
    intros _. apply pure_read_get_optimal_buy_prices.
Qed.

(** ** Order on prices *)

(** Comparisons of binary64 numbers, through their specification
    [SFcompare]: on numbers other than NaN, [<=] is a total preorder. *)
Section FloatOrder.

Ltac sf_cases :=
  repeat match goal with
  | s : bool |- _ => destruct s
  | |- context [Z.compare ?a ?b] => destruct (Z.compare_spec a b)
  | H : context [Z.compare ?a ?b] |- _ => destruct (Z.compare_spec a b)
  | |- context [Pos.compare_cont _ ?a ?b] => rewrite (Pos.compare_cont_spec a b)
  | H : context [Pos.compare_cont _ ?a ?b] |- _ =>
      rewrite (Pos.compare_cont_spec a b) in H
  | |- context [Pos.compare ?a ?b] => destruct (Pos.compare_spec a b)
  | H : context [Pos.compare ?a ?b] |- _ => destruct (Pos.compare_spec a b)
  end; simpl in *; try congruence; try lia.

Lemma SFleb_trans x y z : SFleb x y = true → SFleb y z = true → SFleb x z = true.
Proof. unfold SFleb. destruct x, y, z; simpl; try congruence; sf_cases. Qed.

Lemma SFleb_total x y :
  x ≠ S754_nan → y ≠ S754_nan → SFltb y x = false → SFleb x y = true.
Proof. unfold SFleb, SFltb. destruct x, y; simpl; try congruence; sf_cases. Qed.

Lemma SFleb_refl x : x ≠ S754_nan → SFleb x x = true.
Proof. unfold SFleb. destruct x; simpl; try congruence; sf_cases. Qed.

Lemma SFltb_leb x y : SFltb x y = true → SFleb x y = true.
Proof. unfold SFleb, SFltb. destruct x, y; simpl; try congruence; sf_cases. Qed.


Lemma not_nan_spec (x : float) : is_nan x = false → Prim2SF x ≠ S754_nan.
Proof.
  unfold is_nan. rewrite FloatAxioms.eqb_spec. intros H Hn.
  rewrite Hn in H. discriminate.
Qed.

Lemma leb_trans (x y z : float) :
  (x <=? y)%float = true → (y <=? z)%float = true → (x <=? z)%float = true.
Proof. rewrite !leb_spec. apply SFleb_trans. Qed.

Lemma leb_total (x y : float) :
  is_nan x = false → is_nan y = false →
  (y <? x)%float = false → (x <=? y)%float = true.
Proof.
  intros Hx Hy. rewrite ltb_spec, leb_spec.
  apply SFleb_total; by apply not_nan_spec.
Qed.

Lemma leb_refl (x : float) : is_nan x = false → (x <=? x)%float = true.
Proof. intros Hx. rewrite leb_spec. by apply SFleb_refl, not_nan_spec. Qed.

Lemma ltb_leb (x y : float) : (x <? y)%float = true → (x <=? y)%float = true.
Proof. rewrite ltb_spec, leb_spec. apply SFltb_leb. Qed.


End FloatOrder.

(** A scan from the left that moves to an item when its key is strictly
    below the key of the running best ends on an item of least key. *)
Lemma least_scan {X} (key : X → float) (rest : list X) (x : X) :
  is_nan (key x) = false → Forall (fun y => is_nan (key y) = false) rest →
  let m := fold_left (fun best item => if (key item <? key best)%float then item else best)
                     rest x in
  is_nan (key m) = false ∧ m ∈ x :: rest ∧ (key m <=? key x)%float = true ∧
  ∀ y, y ∈ rest → (key m <=? key y)%float = true.
Proof.
  revert x. induction rest as [| y rest IH]; intros x Hx Hrest; simpl.
  - repeat split; [done | by apply list_elem_of_here | by apply leb_refl |].
    intros y Hy. by apply elem_of_nil in Hy.
  - apply Forall_cons in Hrest as [Hy Hrest].
    destruct (key y <? key x)%float eqn:Hlt.
    + destruct (IH y Hy Hrest) as (Hm & Hin & Hle & Hall).
      repeat split; [done | by apply list_elem_of_further | |].
      * eapply leb_trans; [apply Hle | by apply ltb_leb].
      * intros z Hz. apply elem_of_cons in Hz as [-> | Hz]; auto.
    + destruct (IH x Hx Hrest) as (Hm & Hin & Hle & Hall).
      repeat split; [done | | done |].
      * apply elem_of_cons in Hin as [-> | Hin];
          [apply list_elem_of_here | by do 2 apply list_elem_of_further].
      * intros z Hz. apply elem_of_cons in Hz as [-> | Hz]; auto.
        eapply leb_trans; [apply Hle | by apply leb_total].
Qed.

Lemma py_min_spec (l : list float) :
  no_nan l → l ≠ [] →
  ∃ m, py_min l = inr m ∧ m ∈ l ∧ ∀ y, y ∈ l → (m <=? y)%float = true.
Proof.
  intros Hl Hne. destruct l as [| x rest]; [done |].
  apply Forall_cons in Hl as [Hx Hrest].
  pose proof (least_scan id rest x Hx Hrest) as Hscan.
  cbv beta zeta delta [id] in Hscan. destruct Hscan as (_ & Hin & Hle & Hall).
  eexists. split; [reflexivity |]. split; [done |].
  intros y Hy. apply elem_of_cons in Hy as [-> | Hy]; auto.
Qed.

(** ** The result extractor *)

Section Extractor.

Context (d : DataFrame).

(** A loop that appends, for every item, the prices [f] gives for it. *)
Lemma reading_collect {X Y} (g : Y → X) (f : Y → list float)
    (body : X → list float → M (list float)) (ys : list Y) (acc : list float) :
  (∀ y acc, y ∈ ys → reading d (body (g y) acc) (eq (acc ++ f y))) →
  reading d (for_each (map g ys) body acc) (eq (acc ++ flat_map f ys)).
Proof.
  revert acc. induction ys as [| y ys IH]; intros acc Hbody; simpl.
  - apply reading_ret. by rewrite app_nil_r.
  - apply reading_bind with (Q1 := eq (acc ++ f y)).
    { apply Hbody, list_elem_of_here. }
    intros ? <-. rewrite app_assoc. apply IH.
    intros z acc' Hz. by apply Hbody, list_elem_of_further.
Qed.

Lemma get_optimal_buy_prices_spec (sols : list Solution) :
  selected_in_frame (length (Close d)) sols →
  reading d (get_optimal_buy_prices (response_of sols))
            (eq (selected_prices (Close d) sols)).
Proof.
  intros Hin. unfold get_optimal_buy_prices, response_of.
  apply (reading_collect _ (selected_in (Close d)) _ sols []).
  intros [a e] acc Hsol. unfold sample_of, selected_in. simpl.
  apply (reading_collect _ (price_of_entry (Close d))).
  intros [[k i] v] acc' Hentry. unfold price_of_entry. destruct k.
  - change (var_name Buy i) with (buy_name i). rewrite contains_buy_name.
    destruct (Z.eqb_spec v 1) as [-> | Hv]; cbn [andb].
    + destruct (lookup_lt_is_Some_2 (Close d) i) as [c Hc].
      { apply (proj1 (Forall_forall _ _) Hin) in Hsol.
        by apply (proj1 (Forall_forall _ _) Hsol) in Hentry. }
      rewrite Hc, split_buy_name.
      apply reading_bind with (Q1 := eq (str i)); [by apply reading_lift |].
      intros ? <-. rewrite py_int_str.
      apply reading_bind with (Q1 := eq (Z.of_nat i)); [by apply reading_lift |].
      intros ? <-.
      apply reading_bind with (Q1 := eq c); [by apply (reading_iloc d _ i c) |].
      intros ? <-. by apply reading_ret.
    + apply reading_ret. by rewrite app_nil_r.
  - change (var_name Sell i) with (sell_name i). rewrite contains_sell_name.
    cbn [andb]. apply reading_ret. by rewrite app_nil_r.
Qed.

End Extractor.



(** ** The driver *)

Lemma bind_run {A B} (m : M A) (k : A → M B) (w w' : World) (a : A) :
  m w = (inr a, w') → bind m k w = k a w'.
Proof. intros E. unfold bind. by rewrite E. Qed.

Lemma nothing_selected (closes : list float) (sols : list Solution) :
  no_buy_selected sols →
  selected_prices closes sols = [] ∧ selected_in_frame (length closes) sols.
Proof.
  intros Hno. split.
  - unfold selected_prices. induction Hno as [| [a e] sols Ha _ IH]; [done |].
    simpl. rewrite IH, app_nil_r. unfold selected_in. simpl in *.
    induction Ha as [| [[k i] v] a Hentry _ IHa]; [done |].
    simpl. rewrite IHa, app_nil_r. destruct k; [| done].
    simpl in Hentry. by rewrite Hentry.
  - unfold selected_in_frame. eapply Forall_impl; [apply Hno |].
    intros sol Hsol. eapply Forall_impl; [apply Hsol |].
    intros entry Hentry. simpl in *. by rewrite Hentry.
Qed.

(** C5, as the code has it.  When no buy variable is assigned 1 in any
    returned solution, the extractor returns the empty list, the script
    prints it, and [min] raises Python's own [ValueError] for an empty
    sequence: the frame is unchanged, no file is written, no best entry
    price is printed and no sentinel value is returned. *)
Theorem empty_selection_raises_min_error
    (solve_bqm : BQM → Res SampleSet) (sols : list Solution) (w : World) :
  wf_df (df w) →
  (∀ bqm, solve_bqm bqm = inr (response_of sols)) →
  no_buy_selected sols →
  main solve_bqm w =
    (inl (ValueError "min() arg is an empty sequence"),
     {| df := df w; stdout := stdout w ++ [OptimalBuyPrices []]; files := files w |}).
Proof.
  intros Hwf Hsolve Hno. unfold main.
  destruct (create_bqm_spec (df w) Hwf w eq_refl) as (b & Eb & _).
  rewrite (bind_run _ _ _ _ _ Eb).
  unfold lift at 1. rewrite Hsolve. unfold bind at 1.
  destruct (nothing_selected (Close (df w)) sols Hno) as [Hnil Hin].
  destruct (get_optimal_buy_prices_spec (df w) sols Hin w eq_refl) as (l & El & <-).
  rewrite (bind_run _ _ _ _ _ El), Hnil. reflexivity.
Qed.

Lemma empty_selection_raises_min_error_witness :
  let sols : list Solution :=
    [([(Buy, 1, 0%Z); (Buy, 3, 0%Z); (Buy, 5, 0%Z); (Buy, 7, 0%Z); (Buy, 9, 0%Z);
       (Buy, 11, 0%Z); (Buy, 13, 0%Z)], 0%float)] in
  main (fun _ => inr (response_of sols)) initial_world =
    (inl (ValueError "min() arg is an empty sequence"),
     {| df := script_df; stdout := [OptimalBuyPrices []]; files := ∅ |}).
Proof.
  intros sols.
  apply (empty_selection_raises_min_error (fun _ => inr (response_of sols)) sols
           initial_world).
  - by repeat split.
  - reflexivity.
  - repeat constructor.
Defined.

(** C5 as stated fails: on the script's frame, with a solver that returns the
    assignment setting every buy variable to 0, no buy variable is assigned 1
    and the error that ends the run is not the "no optimal buy price found"
    condition. *)
Lemma empty_selection_not_reported :
  let sols : list Solution :=
    [([(Buy, 1, 0%Z); (Buy, 3, 0%Z); (Buy, 5, 0%Z); (Buy, 7, 0%Z); (Buy, 9, 0%Z);
       (Buy, 11, 0%Z); (Buy, 13, 0%Z)], 0%float)] in
  no_buy_selected sols ∧
  ¬ reports_no_optimal_buy_price (main (fun _ => inr (response_of sols)) initial_world).1.
Proof.
  intros sols. split; [repeat constructor |].
  intros (e & He & Hmsg). vm_compute in He. injection He as <-.
  vm_compute in Hmsg. discriminate.
Qed.

(** ** The exported table *)

Lemma csv_rows_spec (d : DataFrame) (idx : list nat) :
  wf_df d → (∀ i, i ∈ idx → i < len d) →
  ∃ rows, csv_rows d idx = inr rows ∧ length rows = length idx ∧
    ∀ n i, idx !! n = Some i →
      ∃ t c b s, rows !! n = Some [CStr t; CFloat c; CBool b; CBool s] ∧
                 Date d !! i = Some t ∧ Close d !! i = Some c ∧
                 Buy_Signal d !! i = Some b ∧ Sell_Signal d !! i = Some s.
Proof.
  intros Hwf. induction idx as [| i idx IH]; intros Hidx; simpl.
  - exists []. repeat split. intros n i Hn. done.
  - destruct IH as (rows & Erows & Hlen & Hrows).
    { intros j Hj. by apply Hidx, list_elem_of_further. }
    assert (Hi : i < len d) by apply Hidx, list_elem_of_here.
    destruct (wf_lookup d i Hwf Hi) as (c & b & s & Hc & Hb & Hs).
    destruct (lookup_lt_is_Some_2 (Date d) i Hi) as [t Ht].
    unfold csv_row. rewrite Ht, Hc, Hb, Hs, Erows.
    eexists. split; [reflexivity |]. split; [simpl; by rewrite Hlen |].
    intros [| n] j Hn; simpl in *.
    + injection Hn as <-. by exists t, c, b, s.
    + by apply Hrows.
Qed.

(** C6, as the code has it.  The export holds one header row with the four
    columns [Date], [Close], [Buy_Signal] and [Sell_Signal], followed by
    exactly [N] data rows, one per price point and in the order of the
    index; the two boolean cells of every data row are the signal flags of
    the frame at that index; and the file replaces whatever was stored under
    the same path. *)
Theorem csv_export_four_columns (path : string) (w : World) :
  wf_df (df w) →
  ∃ rows,
    df_to_csv path w =
      (inr tt, {| df := df w; stdout := stdout w;
                  files := <[path := csv_header :: rows]> (files w) |}) ∧
    csv_header = [CStr "Date"; CStr "Close"; CStr "Buy_Signal"; CStr "Sell_Signal"] ∧
    length rows = len (df w) ∧
    ∀ i, i < len (df w) →
      ∃ t c b s, rows !! i = Some [CStr t; CFloat c; CBool b; CBool s] ∧
                 Date (df w) !! i = Some t ∧ Close (df w) !! i = Some c ∧
                 Buy_Signal (df w) !! i = Some b ∧ Sell_Signal (df w) !! i = Some s.
Proof.
  intros Hwf.
  destruct (csv_rows_spec (df w) (range 0 (len (df w))) Hwf) as (rows & Erows & Hlen & Hrows).
  { intros i Hi. apply range_elem in Hi. lia. }
  exists rows. unfold df_to_csv, csv_table. rewrite Erows.
  split; [done |]. split; [done |].
  unfold range in *. rewrite length_seq, Nat.sub_0_r in Hlen. split; [done |].
  intros i Hi. apply (Hrows i i). rewrite Nat.sub_0_r. by apply lookup_seq_lt.
Qed.

Lemma csv_export_four_columns_witness :
  ∃ rows,
    df_to_csv "trading_signals.csv" initial_world =
      (inr tt, {| df := script_df; stdout := [];
                  files := <["trading_signals.csv"%string := csv_header :: rows]> ∅ |}) ∧
    csv_header = [CStr "Date"; CStr "Close"; CStr "Buy_Signal"; CStr "Sell_Signal"] ∧
    length rows = 14 ∧
    ∀ i, i < 14 →
      ∃ t c b s, rows !! i = Some [CStr t; CFloat c; CBool b; CBool s] ∧
                 Date script_df !! i = Some t ∧ Close script_df !! i = Some c ∧
                 Buy_Signal script_df !! i = Some b ∧
                 Sell_Signal script_df !! i = Some s.
Proof.
  apply (csv_export_four_columns "trading_signals.csv" initial_world).
  by repeat split.
Defined.

(** C6 as stated fails: the header of the script's export does not have
    exactly three columns. *)
Lemma csv_header_not_three_columns :
  ¬ ∃ header rows,
      csv_table script_df = inr (header :: rows) ∧
      length header = 3 ∧ length rows = len script_df.
Proof.
  intros (header & rows & E & Hh & _). vm_compute in E.
  injection E as <- _. simpl in Hh. lia.
Qed.

(** ** The script under an exact solver *)

Lemma create_script_bqm : create_bqm initial_world = (inr script_bqm, initial_world).
Proof. vm_compute. reflexivity. Qed.




Lemma nothing_selected_assignment (vars : list string) :
  map (fun v => (v, 0%Z)) vars ∈ all_assignments vars.
Proof.
  induction vars as [| v vars IH]; simpl; [apply list_elem_of_here |].
  apply elem_of_app. left. apply list_elem_of_In, in_map. by apply list_elem_of_In.
Qed.

(** Exhaustive search returns an assignment of least energy whenever no
    energy is a NaN. *)
Lemma exact_solve_exact (b : BQM) :
  Forall (fun s => is_nan (energy b s) = false) (all_assignments (variables b)) →
  ∃ response, exact_solve b = inr response ∧ exact_response b response.
Proof.
  intros Hnan. unfold exact_solve. eexists. split; [reflexivity |].
  pose proof (nothing_selected_assignment (variables b)) as Hstart.
  pose proof (proj1 (Forall_forall _ _) Hnan _ Hstart) as Hstart_nan.
  pose proof (least_scan (energy b) _ _ Hstart_nan Hnan) as Hscan.
  cbv zeta in Hscan. destruct Hscan as (_ & Hin & _ & Hall).
  eexists. split; [reflexivity |]. split.
  - by apply elem_of_cons in Hin as [-> | Hin].
  - by apply Forall_forall.
Qed.

Lemma selected_at_indices (closes : list float) (idxs : list nat) :
  flat_map (price_of_entry closes) (map (fun i => (Buy, i, 1%Z)) idxs)
    = flat_map (fun i => option_list (closes !! i)) idxs.
Proof. induction idxs as [| i idxs IH]; simpl; by rewrite ?IH. Qed.

Lemma labels_decode (P : nat → Prop) (keys : list string) :
  (∀ k, k ∈ keys → ∃ i, k = buy_name i ∧ P i) →
  ∃ idxs, keys = map buy_name idxs ∧ Forall P idxs.
Proof.
  induction keys as [| k keys IH]; intros Hkeys.
  - by exists [].
  - destruct (Hkeys k) as (i & -> & Hi); [apply list_elem_of_here |].
    destruct IH as (idxs & -> & Hidxs).
    { intros k Hk. by apply Hkeys, list_elem_of_further. }
    exists (i :: idxs). split; [done | by constructor].
Qed.

(** X17. Selecting every variable of the model of a default frame gives the
    closes at the odd indices, whose least value is then the best entry
    price: this holds for every price series of length 2 at least. *)
Lemma all_selected_best_entry_price
    (dates : list string) (closes : list float) (d : DataFrame) (w : World) (e : float) :
  make_df dates closes = inr d → df w = d → no_nan closes → 2 ≤ length closes →
  ∃ b prices best,
    create_bqm w = (inr b, w) ∧
    get_optimal_buy_prices [(all_selected b, e)] w = (inr prices, w) ∧
    py_min prices = inr best ∧
    (∃ i, Nat.Odd i ∧ closes !! i = Some best) ∧
    ∀ i c, Nat.Odd i → closes !! i = Some c → (best <=? c)%float = true.
Proof.
  intros Hmk Hw Hnan Hlen.
  apply make_df_inv in Hmk as (Hwf & _ & Hc & Hn & Hb & Hs).
  destruct (create_bqm_spec d Hwf w Hw) as (b & Eb & Hl & _). rewrite Hn in Hl.
  assert (Hkey : ∀ k, k ∈ variables b ↔ ∃ i, k = buy_name i ∧ Nat.Odd i ∧ i < length closes).
  { intros k. unfold variables. rewrite list_elem_of_fmap. split.
    - intros ([k' x] & -> & Hkx). apply elem_of_map_to_list, Hl in Hkx.
      destruct Hkx as [(i & Hi & -> & Hbi & _) | (i & _ & _ & Hsi & _)].
      + exists i. split; [done |]. apply range_elem in Hi.
        rewrite Hb in Hbi. apply buy_signals_lookup in Hbi as [_ Hodd].
        split; [by apply Hodd | lia].
      + rewrite Hs in Hsi. by apply sell_signals_lookup in Hsi as [_ ?].
    - intros (i & -> & Hodd & Hi).
      destruct (lookup_lt_is_Some_2 closes i Hi) as [c Hci].
      exists (buy_name i, (- c)%float). split; [done |].
      apply elem_of_map_to_list, Hl. left. exists i.
      split; [apply range_elem; destruct Hodd; lia |]. split; [done |].
      split; [| exists c; by rewrite Hc].
      rewrite Hb. apply buy_signals_lookup. by split. }
  destruct (labels_decode (fun i => Nat.Odd i ∧ i < length closes) (variables b))
    as (idxs & Ekeys & Hidxs).
  { intros k Hk. by apply Hkey. }
  assert (Hmem : ∀ i, i ∈ idxs ↔ Nat.Odd i ∧ i < length closes).
  { intros i. split.
    - intros Hi. by apply (proj1 (Forall_forall _ _) Hidxs).
    - intros Hi. assert (Hk : buy_name i ∈ variables b) by (apply Hkey; by exists i).
      rewrite Ekeys in Hk. apply list_elem_of_In, in_map_iff in Hk as (j & Ej & Hj).
      apply buy_name_inj in Ej as ->. by apply list_elem_of_In. }
  set (sols := [(map (fun i => (Buy, i, 1%Z)) idxs, e)] : list Solution).
  assert (Eresp : [(all_selected b, e)] = response_of sols).
  { unfold all_selected, sols, response_of, sample_of. simpl. rewrite Ekeys.
    by rewrite !map_map. }
  assert (Hprices : selected_prices (Close d) sols
                    = flat_map (fun i => option_list (closes !! i)) idxs).
  { unfold selected_prices, selected_in, sols. simpl.
    by rewrite app_nil_r, selected_at_indices, Hc. }
  assert (Hp : ∀ p, p ∈ selected_prices (Close d) sols ↔
                    ∃ i, Nat.Odd i ∧ closes !! i = Some p).
  { intros p. rewrite Hprices, list_elem_of_In, in_flat_map. split.
    - intros (i & Hi & Hpi). apply list_elem_of_In, Hmem in Hi as [Hodd _].
      exists i. split; [done |]. destruct (closes !! i); simpl in Hpi; [| done].
      by destruct Hpi as [-> | []].
    - intros (i & Hodd & Hpi). exists i. split.
      + apply list_elem_of_In, Hmem. split; [done |]. by eapply lookup_lt_Some.
      + rewrite Hpi. by left. }
  destruct (get_optimal_buy_prices_spec d sols) with (w := w) as (prices & Eprices & <-);
    [| done |].
  { unfold selected_in_frame, sols. repeat constructor. simpl.
    apply Forall_forall. intros entry Hentry _.
    apply list_elem_of_In, in_map_iff in Hentry as (i & <- & Hi). simpl.
    apply list_elem_of_In, Hmem in Hi as [_ Hi]. by rewrite Hc. }
  destruct (py_min_spec (selected_prices (Close d) sols)) as (best & Ebest & Hin & Hleast).
  { apply Forall_forall. intros p Hpp. apply Hp in Hpp as (i & _ & Hpi).
    eapply (proj1 (Forall_forall _ _) Hnan), list_elem_of_lookup_2, Hpi. }
  { destruct (lookup_lt_is_Some_2 closes 1) as [c Hc1]; [lia |].
    assert (Hc1' : c ∈ selected_prices (Close d) sols).
    { apply Hp. exists 1. split; [by exists 0 | done]. }
    intros Enil. rewrite Enil in Hc1'. by apply elem_of_nil in Hc1'. }
  exists b, (selected_prices (Close d) sols), best.
  rewrite Eresp. repeat split; [done | done | done | by apply Hp |].
  intros i c Hodd Hci. apply Hleast, Hp. by exists i.
Qed.





(** The same price is printed when the exact solver returns every assignment
    with its energy, as an exhaustive solver does, instead of the best one
    only. *)
Lemma exhaustive_response_best_entry_price :
  let response :=
    map (fun s => (s, energy script_bqm s)) (all_assignments (variables script_bqm)) in
  ∃ prices w',
    main (fun _ => inr response) initial_world = (inr tt, w') ∧
    stdout w' = [OptimalBuyPrices prices; OptimalEntryPrice 8.46; SignalsSaved].
Proof. eexists _, _. split; [vm_compute; reflexivity | reflexivity]. Qed.

(** * Further properties of the script *)

(** ** Loops *)

Lemma for_each_app {X A} (xs ys : list X) (body : X → A → M A) (a : A) (w : World) :
  for_each (xs ++ ys) body a w = (a' <- for_each xs body a ;; for_each ys body a') w.
Proof.
  revert a w. induction xs as [| x xs IH]; intros a w; [reflexivity |].
  simpl. unfold bind. destruct (body x a w) as [[e | a'] w']; [done |].
  rewrite IH. reflexivity.
Qed.

Lemma for_each_ext {X A} (xs : list X) (body1 body2 : X → A → M A) (a : A) (w : World) :
  (∀ x a w, body1 x a w = body2 x a w) →
  for_each xs body1 a w = for_each xs body2 a w.
Proof.
  intros Hext. revert a w. induction xs as [| x xs IH]; intros a w; simpl; [done |].
  unfold bind. rewrite Hext. destruct (body2 x a w) as [[e | a'] w']; [done | apply IH].
Qed.

Lemma for_each_appends {X} (body : X → list float → M (list float)) :
  appends body → appends (fun xs => for_each xs body).
Proof.
  intros Hbody xs. induction xs as [| x xs IH]; intros acc w; simpl.
  - unfold ret. by rewrite app_nil_r.
  - unfold bind. rewrite (Hbody x acc w).
    destruct (body x [] w) as [[e | l] w1]; [done |].
    rewrite IH, (IH l w1).
    destruct (for_each xs body [] w1) as [[e | l2] w2]; [done |].
    by rewrite app_assoc.
Qed.

(** ** The result extractor on arbitrary responses *)

Lemma get_optimal_buy_prices_loops (response : SampleSet) (w : World) :
  get_optimal_buy_prices response w
    = for_each response (fun record prices => for_each record.1 collect_key prices) [] w.
Proof.
  unfold get_optimal_buy_prices. apply for_each_ext. intros [sample e] acc w'. simpl.
  apply for_each_ext. by intros [key value] acc' w''.
Qed.

Lemma collect_key_appends : appends collect_key.
Proof.
  intros [key value] acc w. unfold collect_key. simpl.
  destruct (str_contains "buy_" key && (value =? 1)%Z)%bool; [| unfold ret; by rewrite app_nil_r].
  unfold bind, lift, df_iloc, ret.
  destruct (list_index (py_split "_" key) 1) as [e | field]; [done |].
  destruct (py_int field) as [e | index]; [done |].
  by destruct (iloc (Close (df w)) index) as [e | c].
Qed.

Lemma record_loop_appends :
  appends (fun (record : Sample * float) prices => for_each record.1 collect_key prices).
Proof. intros record. apply for_each_appends, collect_key_appends. Qed.

Lemma get_optimal_buy_prices_app (r1 r2 : SampleSet) (w : World) :
  get_optimal_buy_prices (r1 ++ r2) w =
    match get_optimal_buy_prices r1 w with
    | (inl e, w1) => (inl e, w1)
    | (inr l1, w1) =>
        match get_optimal_buy_prices r2 w1 with
        | (inl e, w2) => (inl e, w2)
        | (inr l2, w2) => (inr (l1 ++ l2), w2)
        end
    end.
Proof.
  rewrite !get_optimal_buy_prices_loops, for_each_app. unfold bind.
  destruct (for_each r1 _ [] w) as [[e | l1] w1]; [done |].
  rewrite get_optimal_buy_prices_loops.
  apply (for_each_appends _ record_loop_appends r2 l1 w1).
Qed.

(** X9. The extractor works through a response piece by piece: on [r1 ++ r2] it
    raises what it raises on [r1]; otherwise what it raises on [r2];
    otherwise it returns the prices of [r1] followed by those of [r2]. *)
Theorem extractor_concat (r1 r2 : SampleSet) (w : World) :
  get_optimal_buy_prices (r1 ++ r2) w =
    match get_optimal_buy_prices r1 w with
    | (inl e, w1) => (inl e, w1)
    | (inr l1, w1) =>
        match get_optimal_buy_prices r2 w1 with
        | (inl e, w2) => (inl e, w2)
        | (inr l2, w2) => (inr (l1 ++ l2), w2)
        end
    end.
Proof. apply get_optimal_buy_prices_app. Qed.

(** Only the concatenation of the samples matters: cutting a sample in two
    records gives the same result. *)
Lemma extractor_split_sample (s1 s2 : Sample) (e e1 e2 : float) (w : World) :
  get_optimal_buy_prices [(s1 ++ s2, e)] w
    = get_optimal_buy_prices ([(s1, e1)] ++ [(s2, e2)]) w.
Proof.
  rewrite !get_optimal_buy_prices_loops. simpl. unfold bind, ret.
  rewrite for_each_app. unfold bind.
  by destruct (for_each s1 collect_key [] w) as [[err | l1] w1].
Qed.



(** ** Keys of a sample *)

Lemma py_split_fields (sep : ascii) (s : string) :
  ∃ field fields, py_split sep s = field :: fields.
Proof.
  induction s as [| c s (field & fields & IH)]; simpl; [by eexists _, _ |].
  destruct (Ascii.eqb c sep); [by eexists _, _ |]. rewrite IH. by eexists _, _.
Qed.

Lemma py_split_cons (sep c : ascii) (s : string) :
  ∃ field, py_split sep (String c s) = field :: match py_split sep s with
                                                 | [] => []
                                                 | first :: fields =>
                                                     if Ascii.eqb c sep then first :: fields
                                                     else fields
                                                 end.
Proof.
  simpl. destruct (py_split_fields sep s) as (first & fields & E). rewrite E.
  destruct (Ascii.eqb c sep); by eexists.
Qed.

Lemma prefix_buy (key : string) :
  String.prefix "buy_" key = true →
  ∃ rest, key = String "b" (String "u" (String "y" (String "_" rest))).
Proof.
  destruct key as [| c1 [| c2 [| c3 [| c4 rest]]]]; cbn [String.prefix]; try done;
    repeat (match goal with
            | |- context [ascii_dec ?a ?b] => destruct (ascii_dec a b) as [<- |]
            end; try done).
  intros _. by exists rest.
Qed.

Lemma second_field_of_guarded_key (key : string) :
  str_contains "buy_" key = true →
  ∃ field, list_index (py_split "_" key) 1 = inr field.
Proof.
  assert (Hsecond : ∀ s, (∃ a b l, py_split "_" s = a :: b :: l) →
                         ∃ field, list_index (py_split "_" s) 1 = inr field).
  { intros s (a & b & l & ->). by exists b. }
  intros Hkey. apply Hsecond. clear Hsecond.
  induction key as [| c key IH]; [done |].
  cbn [str_contains] in Hkey.
  destruct (String.prefix "buy_" (String c key)) eqn:Hprefix.
  - apply prefix_buy in Hprefix as (rest & ->).
    destruct (py_split_fields "_" rest) as (field & fields & E).
    simpl. rewrite E. by eexists _, _, _.
  - destruct (IH Hkey) as (a & b & l & E). cbn [py_split]. rewrite E.
    destruct (Ascii.eqb c "_"); by eexists _, _, _.
Qed.

(** X11. Line 96 never fails on the list index: a key that passes the test
    ['buy_' in key] has a second field when split on ['_']. *)
Theorem guarded_key_has_index_field (key : string) :
  str_contains "buy_" key = true →
  ∃ field, list_index (py_split "_" key) 1 = inr field.
Proof. apply second_field_of_guarded_key. Qed.

Lemma guarded_key_has_index_field_witness :
  ∃ field, list_index (py_split "_" "rebuy_now") 1 = inr field.
Proof. by apply (guarded_key_has_index_field "rebuy_now"). Defined.

Lemma for_each_raises {X A} (xs : list X) (body : X → A → M A) (a : A)
    (w w' : World) (e : PyExn) :
  for_each xs body a w = (inl e, w') →
  ∃ x a0 w0 w1, x ∈ xs ∧ body x a0 w0 = (inl e, w1).
Proof.
  revert a w. induction xs as [| x xs IH]; intros a w; simpl; [done |].
  unfold bind. destruct (body x a w) as [[e0 | a1] w1] eqn:Ebody.
  - intros [= -> ->]. exists x, a, w, w'. split; [apply list_elem_of_here | done].
  - intros Hrest. destruct (IH _ _ Hrest) as (y & a0 & w0 & w2 & Hy & Ey).
    exists y, a0, w0, w2. split; [by apply list_elem_of_further | done].
Qed.

Lemma iloc_raises {A} (col : list A) (i : Z) (e : PyExn) :
  iloc col i = inl e → e = IndexError "single positional indexer is out-of-bounds".
Proof.
  unfold iloc. destruct (_ && _)%bool; [| congruence].
  destruct (col !! _); congruence.
Qed.

(** X12. The extractor raises nothing but the [ValueError] of [int] on a field
    that is not an integer and the [IndexError] of [iloc] on a position
    outside the frame; in both cases the key at fault passed the test
    ['buy_' in key] with the value 1. *)
Theorem extractor_errors (response : SampleSet) (w w' : World) (e : PyExn) :
  get_optimal_buy_prices response w = (inl e, w') →
  ∃ sample energy key field,
    (sample, energy) ∈ response ∧ (key, 1%Z) ∈ sample ∧
    str_contains "buy_" key = true ∧
    list_index (py_split "_" key) 1 = inr field ∧
    (py_int field = inl e ∨
     ∃ index, py_int field = inr index ∧
              e = IndexError "single positional indexer is out-of-bounds").
Proof.
  rewrite get_optimal_buy_prices_loops. intros Hraise.
  apply for_each_raises in Hraise as ([sample energy] & a0 & w0 & w1 & Hrecord & Hraise).
  apply for_each_raises in Hraise as ([key value] & a1 & w2 & w3 & Hitem & Hraise).
  exists sample, energy, key. unfold collect_key in Hraise. simpl in *.
  destruct (str_contains "buy_" key) eqn:Hguard; [| done].
  destruct (Z.eqb_spec value 1) as [-> | ?]; [| done]. simpl in Hraise.
  destruct (second_field_of_guarded_key key Hguard) as [field Hfield].
  exists field. repeat split; try done.
  unfold bind, lift, df_iloc, ret in Hraise. rewrite Hfield in Hraise.
  destruct (py_int field) as [e0 | index]; [injection Hraise as -> _; by left | right].
  exists index. split; [done |].
  destruct (iloc (Close (df w2)) index) as [e0 | c] eqn:Eiloc; [| done].
  injection Hraise as <- _. by apply iloc_raises in Eiloc.
Qed.

Lemma extractor_errors_witness :
  ∃ sample energy key field,
    (sample, energy) ∈ [([("buy_99"%string, 1%Z)], 0%float)] ∧ (key, 1%Z) ∈ sample ∧
    str_contains "buy_" key = true ∧
    list_index (py_split "_" key) 1 = inr field ∧
    (py_int field = inl (IndexError "single positional indexer is out-of-bounds") ∨
     ∃ index, py_int field = inr index ∧
              IndexError "single positional indexer is out-of-bounds"
                = IndexError "single positional indexer is out-of-bounds").
Proof.
  by apply (extractor_errors [([("buy_99"%string, 1%Z)], 0%float)]
              initial_world initial_world).
Defined.

Lemma iloc_beyond {A} (col : list A) (i : nat) :
  length col ≤ i →
  iloc col (Z.of_nat i) = inl (IndexError "single positional indexer is out-of-bounds").
Proof.
  intros Hi. unfold iloc.
  destruct (Z.ltb_spec (Z.of_nat i) 0); [lia |].
  destruct (Z.ltb_spec (Z.of_nat i) (Z.of_nat (length col))); [lia |].
  by rewrite andb_false_r.
Qed.

Lemma response_of_app (sols1 sols2 : list Solution) :
  response_of (sols1 ++ sols2) = response_of sols1 ++ response_of sols2.
Proof. apply map_app. Qed.

Lemma response_of_cons (a : list (Kind * nat * Z)) (e : float) (sols : list Solution) :
  response_of ((a, e) :: sols) = [(sample_of a, e)] ++ response_of sols.
Proof. reflexivity. Qed.

Lemma sample_of_app (a1 a2 : list (Kind * nat * Z)) :
  sample_of (a1 ++ a2) = sample_of a1 ++ sample_of a2.
Proof. apply map_app. Qed.

(** X13. A solution that selects a buy variable whose index lies beyond the last
    row makes the extractor raise [IndexError], with the store as it was:
    nothing of what the solutions before it selected is returned. *)
Theorem extractor_index_beyond_frame
    (d : DataFrame) (sols rest : list Solution) (a1 a2 : list (Kind * nat * Z))
    (e : float) (i : nat) (w : World) :
  df w = d →
  selected_in_frame (length (Close d)) (sols ++ [(a1, e)]) →
  length (Close d) ≤ i →
  get_optimal_buy_prices
      (response_of (sols ++ (a1 ++ (Buy, i, 1%Z) :: a2, e) :: rest)) w
    = (inl (IndexError "single positional indexer is out-of-bounds"), w).
Proof.
  intros Hw Hin Hi. apply Forall_app in Hin as [Hsols Ha1].
  rewrite response_of_app, response_of_cons, sample_of_app, get_optimal_buy_prices_app.
  destruct (get_optimal_buy_prices_spec d sols Hsols w Hw) as (l & -> & _).
  rewrite (get_optimal_buy_prices_app [_] (response_of rest)).
  rewrite (extractor_split_sample _ _ e e e).
  rewrite (get_optimal_buy_prices_app [(sample_of a1, e)] [_]).
  change [(sample_of a1, e)] with (response_of [(a1, e)]).
  destruct (get_optimal_buy_prices_spec d [(a1, e)] Ha1 w Hw) as (l1 & -> & _).
  rewrite get_optimal_buy_prices_loops.
  cbn [for_each fst sample_of map]. unfold collect_key. cbn [fst snd].
  change (var_name Buy i) with (buy_name i).
  rewrite contains_buy_name, split_buy_name.
  unfold bind, lift, df_iloc, list_index. cbn [lookup list_lookup andb Z.eqb Pos.eqb].
  by rewrite py_int_str, Hw, iloc_beyond.
Qed.

Lemma extractor_index_beyond_frame_witness :
  get_optimal_buy_prices
      (response_of ([([(Buy, 3, 1%Z)], 0%float)]
                    ++ ([(Buy, 1, 1%Z)] ++ (Buy, 15, 1%Z) :: [(Buy, 5, 1%Z)], 0%float)
                       :: [])) initial_world
    = (inl (IndexError "single positional indexer is out-of-bounds"), initial_world).
Proof.
  apply (extractor_index_beyond_frame script_df); [reflexivity | | simpl; lia].
  repeat constructor; simpl; lia.
Defined.

Lemma contains_after_prefix (p : string) (i : nat) :
  str_contains "buy_" (p +:+ buy_name i) = true.
Proof.
  induction p as [| c p IH]; [apply contains_buy_name |].
  change (String c p +:+ buy_name i) with (String c (p +:+ buy_name i)).
  cbn [str_contains]. rewrite IH. by destruct (String.prefix _ _).
Qed.

Lemma no_underscore_cons (c : ascii) (p : string) :
  str_contains "_" (String c p) = false →
  Ascii.eqb c "_" = false ∧ str_contains "_" p = false.
Proof.
  cbn [str_contains String.prefix].
  destruct (ascii_dec "_" c) as [<- | Hc].
  - by destruct p.
  - intros Hp. split; [| done]. apply Ascii.eqb_neq. congruence.
Qed.

Lemma split_after_prefix (p : string) (i : nat) :
  str_contains "_" p = false →
  py_split "_" (p +:+ buy_name i) = [p +:+ "buy"; str i].
Proof.
  induction p as [| c p IH]; intros Hp; [apply split_buy_name |].
  apply no_underscore_cons in Hp as [Hc Hp].
  change (String c p +:+ buy_name i) with (String c (p +:+ buy_name i)).
  cbn [py_split]. by rewrite Hc, (IH Hp).
Qed.

(** X14. The test for a buy variable is a substring test: a key made of any text
    without underscore followed by a buy label is read as that buy variable,
    and its price is collected. *)
Theorem extractor_reads_any_key_with_buy
    (p : string) (i : nat) (c e : float) (w : World) :
  str_contains "_" p = false → Close (df w) !! i = Some c →
  get_optimal_buy_prices [([(p +:+ buy_name i, 1%Z)], e)] w = (inr [c], w).
Proof.
  intros Hp Hc. rewrite get_optimal_buy_prices_loops. simpl. unfold collect_key. simpl.
  rewrite contains_after_prefix, (split_after_prefix p i Hp). simpl.
  unfold bind, lift, df_iloc. simpl. by rewrite py_int_str, (iloc_lookup _ _ _ Hc).
Qed.

Lemma extractor_reads_any_key_with_buy_witness :
  get_optimal_buy_prices [([("re" +:+ buy_name 3, 1%Z)], 0%float)] initial_world
    = (inr [8.46%float], initial_world).
Proof. by apply (extractor_reads_any_key_with_buy "re" 3). Defined.

(** ** The model builder on arbitrary signal columns *)

(** X7. Distinct variables have distinct labels: the label determines the kind
    and the index, so no call of [add_variable] meets a label that is
    already in the model. *)
Theorem var_name_inj (k k' : Kind) (i i' : nat) :
  var_name k i = var_name k' i' → k = k' ∧ i = i'.
Proof.
  destruct k, k'; simpl; intros E.
  - by apply buy_name_inj in E as ->.
  - by apply buy_sell_distinct in E.
  - symmetry in E. by apply buy_sell_distinct in E.
  - by apply sell_name_inj in E as ->.
Qed.

Lemma var_name_inj_witness : Buy = Buy ∧ 7 = 7.
Proof. by apply (var_name_inj Buy Buy 7 7). Defined.

(** X1. Whatever the signal columns, the model holds a buy variable for exactly
    the indices from 1 on that are flagged for buying, a sell variable for
    exactly those flagged for selling, and no other variable. *)
Theorem variables_follow_flags (d : DataFrame) (w : World) :
  wf_df d → df w = d →
  ∃ b, create_bqm w = (inr b, w) ∧
    (∀ i, is_Some (linear b !! buy_name i) ↔
          1 ≤ i < len d ∧ Buy_Signal d !! i = Some true) ∧
    (∀ i, is_Some (linear b !! sell_name i) ↔
          1 ≤ i < len d ∧ Sell_Signal d !! i = Some true) ∧
    (∀ k, is_Some (linear b !! k) → ∃ kind i, k = var_name kind i ∧ 1 ≤ i < len d).
Proof.
  intros Hwf Hw. destruct (create_bqm_spec d Hwf w Hw) as (b & Eb & Hl & _).
  exists b. split; [done |]. split; [| split].
  - intros i. split.
    + intros [x Hx]. apply Hl in Hx as [(j & Hj & En & Hbj & _) | (j & _ & En & _)].
      * apply buy_name_inj in En as <-. by apply range_elem in Hj.
      * by apply buy_sell_distinct in En.
    + intros [Hi Hb]. destruct (wf_lookup d i Hwf) as (c & _ & _ & Hc & _); [lia |].
      exists (- c)%float. apply Hl. left. exists i.
      split; [by apply range_elem |]. eauto.
  - intros i. split.
    + intros [x Hx]. apply Hl in Hx as [(j & _ & En & _) | (j & Hj & En & Hsj & _)].
      * symmetry in En. by apply buy_sell_distinct in En.
      * apply sell_name_inj in En as <-. by apply range_elem in Hj.
    + intros [Hi Hs]. destruct (wf_lookup d i Hwf) as (c & _ & _ & Hc & _); [lia |].
      exists c. apply Hl. right. exists i. split; [by apply range_elem |]. eauto.
  - intros k [x Hx]. apply Hl in Hx as [(j & Hj & -> & _) | (j & Hj & -> & _)];
      apply range_elem in Hj; [by exists Buy, j | by exists Sell, j].
Qed.

Lemma variables_follow_flags_witness :
  let d := {| Date := ["2024.03.05 16:45"; "2024.03.05 17:00"; "2024.03.05 17:15"]%string;
              Close := [8.94; 8.96; 8.55]%float;
              Buy_Signal := [true; true; false]; Sell_Signal := [true; true; true] |} in
  let w := {| df := d; stdout := []; files := ∅ |} in
  ∃ b, create_bqm w = (inr b, w) ∧
    (∀ i, is_Some (linear b !! buy_name i) ↔
          1 ≤ i < len d ∧ Buy_Signal d !! i = Some true) ∧
    (∀ i, is_Some (linear b !! sell_name i) ↔
          1 ≤ i < len d ∧ Sell_Signal d !! i = Some true) ∧
    (∀ k, is_Some (linear b !! k) → ∃ kind i, k = var_name kind i ∧ 1 ≤ i < len d).
Proof.
  intros d w. apply (variables_follow_flags d w); [by repeat split | reflexivity].
Defined.



(** X3. A frame with no row or a single row gives the empty model, whatever its
    columns hold: the loops start at index 1 and no cell is read. *)
Theorem short_frame_empty_model (w : World) :
  len (df w) ≤ 1 → create_bqm w = (inr bqm_empty, w).
Proof.
  intros Hlen. unfold create_bqm, bind, df_len.
  assert (E : range 1 (len (df w)) = []).
  { unfold range. by replace (len (df w) - 1) with 0 by lia. }
  rewrite E. cbn [for_each]. unfold ret at 1. by rewrite E.
Qed.

Lemma short_frame_empty_model_witness :
  let w := {| df := {| Date := ["2024.03.05 16:45"%string]; Close := [8.94%float];
                       Buy_Signal := [true]; Sell_Signal := [true] |};
              stdout := []; files := ∅ |} in
  create_bqm w = (inr bqm_empty, w).
Proof. intros w. apply (short_frame_empty_model w). cbv. lia. Defined.

(** X4. The model depends on the rows from 1 on only, and never on the dates:
    two frames of the same length that agree on the close and on both flags
    at every index from 1 on give the same model. *)
Theorem model_ignores_first_row_and_dates (d1 d2 : DataFrame) (w1 w2 : World) :
  wf_df d1 → wf_df d2 → df w1 = d1 → df w2 = d2 → len d1 = len d2 →
  (∀ i, 1 ≤ i →
        Close d1 !! i = Close d2 !! i ∧ Buy_Signal d1 !! i = Buy_Signal d2 !! i ∧
        Sell_Signal d1 !! i = Sell_Signal d2 !! i) →
  (create_bqm w1).1 = (create_bqm w2).1.
Proof.
  intros Hwf1 Hwf2 Hw1 Hw2 Hlen Hrows.
  destruct (create_bqm_spec d1 Hwf1 w1 Hw1) as ([l1 q1] & -> & Hl1 & Hq1).
  destruct (create_bqm_spec d2 Hwf2 w2 Hw2) as ([l2 q2] & -> & Hl2 & Hq2).
  simpl in *. rewrite <- Hlen in Hl2, Hq2.
  assert (Hfrom1 : ∀ i, i ∈ range 1 (len d1) → 1 ≤ i)
    by (intros i Hi; apply range_elem in Hi; lia).
  do 2 f_equal.
  - apply map_eq. intros k. apply option_eq. intros x.
    rewrite (Hl1 k x), (Hl2 k x).
    split; (intros [(i & Hi & ? & Hb & c & Hc & ?) | (i & Hi & ? & Hs & Hc)];
      destruct (Hrows i (Hfrom1 i Hi)) as (Ec & Eb & Es);
      [left; exists i; repeat split; try done; [congruence | exists c; split; congruence]
      | right; exists i; repeat split; try done; congruence]).
  - apply map_eq. intros [u v]. apply option_eq. intros x.
    rewrite (Hq1 u v x), (Hq2 u v x).
    split; (intros (i & Hi & ? & ? & Hb & Hs & ?);
      destruct (Hrows i (Hfrom1 i Hi)) as (Ec & Eb & Es);
      exists i; repeat split; try done; congruence).
Qed.

Lemma model_ignores_first_row_and_dates_witness :
  let d2 := {| Date := map (fun _ => "no date"%string) data_Date;
               Close := 0%float :: tail data_Close;
               Buy_Signal := true :: tail (Buy_Signal script_df);
               Sell_Signal := true :: tail (Sell_Signal script_df) |} in
  (create_bqm initial_world).1
    = (create_bqm {| df := d2; stdout := []; files := ∅ |}).1.
Proof.
  intros d2.
  apply (model_ignores_first_row_and_dates script_df d2);
    try reflexivity; try (by repeat split).
  intros [| i] Hi; [lia | by repeat split].
Defined.

(** ** Biases and prices *)

Lemma SFltb_opp (x y : spec_float) :
  SFltb x y = true → SFltb (SFopp y) (SFopp x) = true.
Proof.
  unfold SFltb. destruct x as [sx | sx | | sx mx ex], y as [sy | sy | | sy my ey];
    simpl; try congruence;
    repeat match goal with
    | s : bool |- _ => destruct s
    | |- context [Z.compare ?a ?b] => destruct (Z.compare_spec a b)
    | |- context [Pos.compare_cont _ ?a ?b] => rewrite (Pos.compare_cont_spec a b)
    | |- context [Pos.compare ?a ?b] => destruct (Pos.compare_spec a b)
    end; simpl; try congruence; try lia.
Qed.

Lemma ltb_opp (x y : float) : (x <? y)%float = true → (- y <? - x)%float = true.
Proof. rewrite !ltb_spec, !opp_spec. apply SFltb_opp. Qed.

(** X6. Bias order reverses price order, whatever the sign of the prices: of two
    buy variables of the model, the one at the strictly higher close has the
    strictly lower bias. *)
Theorem lower_price_lower_bias (d : DataFrame) (w : World) (i j : nat) (ci cj : float) :
  wf_df d → df w = d →
  Close d !! i = Some ci → Close d !! j = Some cj → (ci <? cj)%float = true →
  ∃ b, create_bqm w = (inr b, w) ∧
    ∀ bi bj, linear b !! buy_name i = Some bi → linear b !! buy_name j = Some bj →
             (bj <? bi)%float = true.
Proof.
  intros Hwf Hw Hi Hj Hlt. destruct (create_bqm_spec d Hwf w Hw) as (b & Eb & Hl & _).
  exists b. split; [done |]. intros bi bj Hbi Hbj.
  apply Hl in Hbi as [(i' & _ & En & _ & c & Hc & ->) | (i' & _ & En & _)];
    [| by apply buy_sell_distinct in En].
  apply buy_name_inj in En as <-.
  apply Hl in Hbj as [(j' & _ & En & _ & c' & Hc' & ->) | (j' & _ & En & _)];
    [| by apply buy_sell_distinct in En].
  apply buy_name_inj in En as <-.
  apply ltb_opp. congruence.
Qed.

Lemma lower_price_lower_bias_witness :
  ∃ b, create_bqm initial_world = (inr b, initial_world) ∧
    ∀ bi bj, linear b !! buy_name 3 = Some bi → linear b !! buy_name 1 = Some bj →
             (bj <? bi)%float = true.
Proof.
  apply (lower_price_lower_bias script_df initial_world 3 1 8.46%float 8.96%float);
    (reflexivity || by repeat split).
Defined.

(** ** The size of the model *)

Lemma div2_succ (n : nat) : S n / 2 = n / 2 + (if Nat.odd n then 1 else 0).
Proof.
  rewrite <- !Nat.div2_div. destruct (Nat.odd n) eqn:Hodd.
  - apply Nat.odd_spec in Hodd as [k ->].
    replace (S (2 * k + 1)) with (2 * S k) by lia.
    rewrite Nat.div2_double. replace (2 * k + 1) with (S (2 * k)) by lia.
    rewrite Nat.div2_succ_double. lia.
  - assert (Heven : Nat.even n = true) by (rewrite <- Nat.negb_odd, Hodd; done).
    apply Nat.even_spec in Heven as [k ->].
    by rewrite Nat.div2_succ_double, Nat.div2_double, Nat.add_0_r.
Qed.

Lemma count_odd_below (n : nat) :
  length (filter (fun i => Nat.odd i = true) (seq 0 n)) = n / 2.
Proof.
  induction n as [| n IH]; [done |].
  rewrite seq_S, filter_app, length_app, IH, div2_succ. simpl.
  rewrite filter_cons, filter_nil. destruct (decide (Nat.odd n = true)) as [-> | Hn]; [done |].
  by destruct (Nat.odd n).
Qed.

(** X5. Under the default signal rule the model has one variable for every two
    rows, rounded down: [N / 2] variables for a series of length [N]. *)
Theorem default_rule_model_size
    (dates : list string) (closes : list float) (d : DataFrame) (w : World) :
  make_df dates closes = inr d → df w = d →
  ∃ b, create_bqm w = (inr b, w) ∧ size (linear b) = length closes / 2.
Proof.
  intros Hmk Hw. apply make_df_inv in Hmk as (Hwf & _ & Hc & Hn & Hb & Hs).
  destruct (create_bqm_spec d Hwf w Hw) as (b & Eb & Hl & _). rewrite Hn in Hl.
  exists b. split; [done |].
  assert (Hkey : ∀ k, k ∈ variables b ↔
                      ∃ i, k = buy_name i ∧ Nat.odd i = true ∧ i < length closes).
  { intros k. unfold variables. rewrite list_elem_of_fmap. split.
    - intros ([k' x] & -> & Hkx). apply elem_of_map_to_list, Hl in Hkx.
      destruct Hkx as [(i & Hi & -> & Hbi & _) | (i & _ & _ & Hsi & _)].
      + exists i. split; [done |]. apply range_elem in Hi.
        rewrite Hb in Hbi. apply buy_signals_lookup in Hbi as [_ Hodd].
        split; [by apply Nat.odd_spec, Hodd | lia].
      + rewrite Hs in Hsi. by apply sell_signals_lookup in Hsi as [_ ?].
    - intros (i & -> & Hodd & Hi). apply Nat.odd_spec in Hodd.
      destruct (lookup_lt_is_Some_2 closes i Hi) as [c Hci].
      exists (buy_name i, (- c)%float). split; [done |].
      apply elem_of_map_to_list, Hl. left. exists i.
      split; [apply range_elem; destruct Hodd; lia |]. split; [done |].
      split; [| exists c; by rewrite Hc].
      rewrite Hb. apply buy_signals_lookup. by split. }
  destruct (labels_decode (fun _ => True) (variables b)) as (idxs & Ekeys & _).
  { intros k Hk. apply Hkey in Hk as (i & -> & _). by exists i. }
  assert (Hnodup : NoDup idxs).
  { apply (NoDup_fmap_1 buy_name). change (buy_name <$> idxs) with (map buy_name idxs).
    rewrite <- Ekeys. apply NoDup_fst_map_to_list. }
  assert (Hperm : idxs ≡ₚ filter (fun i => Nat.odd i = true) (seq 0 (length closes))).
  { apply NoDup_Permutation; [done | apply NoDup_filter, NoDup_seq |].
    intros i. rewrite list_elem_of_filter, elem_of_seq. split.
    - intros Hi. assert (Hk : buy_name i ∈ variables b).
      { rewrite Ekeys. by apply list_elem_of_In, in_map, list_elem_of_In. }
      apply Hkey in Hk as (j & Ej & Hodd & Hj). apply buy_name_inj in Ej as <-.
      split; [done | lia].
    - intros [Hodd Hi]. assert (Hk : buy_name i ∈ variables b).
      { apply Hkey. exists i. split; [done |]. split; [done | lia]. }
      rewrite Ekeys in Hk. apply list_elem_of_In, in_map_iff in Hk as (j & Ej & Hj).
      apply buy_name_inj in Ej as ->. by apply list_elem_of_In. }
  rewrite <- length_map_to_list, <- (length_fmap fst). fold (variables b).
  by rewrite Ekeys, length_map, Hperm, count_odd_below.
Qed.

Lemma default_rule_model_size_witness :
  ∃ b, create_bqm initial_world = (inr b, initial_world) ∧
       size (linear b) = length data_Close / 2.
Proof.
  apply (default_rule_model_size data_Date data_Close script_df initial_world);
    reflexivity.
Defined.

(** ** The driver on arbitrary frames and solvers *)

(** X18. A failure of the solver is the failure of the script: the exception
    passes through [main] unchanged, and nothing is printed or written. *)
Theorem solver_error_propagates
    (solve_bqm : BQM → Res SampleSet) (e : PyExn) (w : World) :
  wf_df (df w) →
  (∀ bqm, create_bqm w = (inr bqm, w) → solve_bqm bqm = inl e) →
  main solve_bqm w = (inl e, w).
Proof.
  intros Hwf Hsolve. unfold main.
  destruct (create_bqm_spec (df w) Hwf w eq_refl) as (b & Eb & _).
  rewrite (bind_run _ _ _ _ _ Eb). unfold bind, lift. by rewrite (Hsolve b Eb).
Qed.

Lemma solver_error_propagates_witness :
  main (fun _ => inl (ValueError "no solver access token")) initial_world
    = (inl (ValueError "no solver access token"), initial_world).
Proof.
  apply (solver_error_propagates _ _ initial_world); [by repeat split | done].
Defined.

(** X19. When some buy variable of the frame is assigned 1, the script runs to its
    end: it prints the selected prices, then a price of that list that is
    below or equal to all of them, writes the export with one row per price
    point under the header, prints the closing line, and leaves the frame
    and the other files as they were. *)
Theorem main_succeeds
    (solve_bqm : BQM → Res SampleSet) (sols : list Solution) (w : World) :
  wf_df (df w) → no_nan (Close (df w)) →
  (∀ bqm, create_bqm w = (inr bqm, w) → solve_bqm bqm = inr (response_of sols)) →
  selected_in_frame (length (Close (df w))) sols →
  selected_prices (Close (df w)) sols ≠ [] →
  ∃ best rows,
    main solve_bqm w =
      (inr tt,
       {| df := df w;
          stdout := stdout w ++ [OptimalBuyPrices (selected_prices (Close (df w)) sols);
                                 OptimalEntryPrice best; SignalsSaved];
          files := <["trading_signals.csv"%string := csv_header :: rows]> (files w) |}) ∧
    best ∈ selected_prices (Close (df w)) sols ∧
    (∀ p, p ∈ selected_prices (Close (df w)) sols → (best <=? p)%float = true) ∧
    length rows = len (df w).
Proof.
  intros Hwf Hnan Hsolve Hin Hne.
  destruct (create_bqm_spec (df w) Hwf w eq_refl) as (b & Eb & _).
  destruct (get_optimal_buy_prices_spec (df w) sols Hin w eq_refl) as (l & El & <-).
  destruct (py_min_spec (selected_prices (Close (df w)) sols)) as (best & Ebest & Hbest & Hleast);
    [| done |].
  { apply Forall_forall. intros p Hp.
    apply list_elem_of_In, in_flat_map in Hp as ([a e] & _ & Hp).
    apply in_flat_map in Hp as ([[k i] v] & _ & Hp).
    destruct k; simpl in Hp; [| done]. destruct (v =? 1)%Z; [| done].
    destruct (Close (df w) !! i) as [c |] eqn:Hc; simpl in Hp; [| done].
    destruct Hp as [<- | []].
    eapply (proj1 (Forall_forall _ _) Hnan), list_elem_of_lookup_2, Hc. }
  destruct (csv_rows_spec (df w) (range 0 (len (df w))) Hwf) as (rows & Erows & Hlen & _).
  { intros i Hi. apply range_elem in Hi. lia. }
  exists best, rows. split; [| split; [done | split; [done |]]].
  - unfold main. rewrite (bind_run _ _ _ _ _ Eb).
    unfold lift at 1. rewrite (Hsolve b Eb). unfold bind at 1.
    rewrite (bind_run _ _ _ _ _ El).
    unfold bind, print, lift, df_to_csv, csv_table. simpl.
    rewrite Ebest, Erows. simpl. by rewrite <- !app_assoc.
  - unfold range in Hlen. by rewrite length_seq, Nat.sub_0_r in Hlen.
Qed.

Lemma main_succeeds_witness :
  let sols : list Solution := [([(Buy, 1, 1%Z); (Buy, 3, 1%Z); (Buy, 5, 0%Z)], 0%float)] in
  ∃ best rows,
    main (fun _ => inr (response_of sols)) initial_world =
      (inr tt,
       {| df := script_df;
          stdout := [] ++ [OptimalBuyPrices (selected_prices (Close script_df) sols);
                           OptimalEntryPrice best; SignalsSaved];
          files := <["trading_signals.csv"%string := csv_header :: rows]> ∅ |}) ∧
    best ∈ selected_prices (Close script_df) sols ∧
    (∀ p, p ∈ selected_prices (Close script_df) sols → (best <=? p)%float = true) ∧
    length rows = len script_df.
Proof.
  intros sols.
  apply (main_succeeds (fun _ => inr (response_of sols)) sols initial_world).
  - by repeat split.
  - repeat constructor.
  - done.
  - repeat constructor; simpl; lia.
  - discriminate.
Defined.

Lemma footprint_refl (w : World) : footprint w w.
Proof. split; [done |]. split; [done |]. exists []. by rewrite app_nil_r. Qed.

Lemma footprint_trans (w1 w2 w3 : World) :
  footprint w1 w2 → footprint w2 w3 → footprint w1 w3.
Proof.
  intros (Hd1 & Hf1 & out1 & Ho1) (Hd2 & Hf2 & out2 & Ho2).
  split; [congruence |]. split.
  - intros path Hpath. by rewrite Hf2, Hf1.
  - exists (out1 ++ out2). by rewrite Ho2, Ho1, app_assoc.
Qed.

Lemma footprint_pure_read {A} (m : M A) (w : World) : pure_read m → footprint w (m w).2.
Proof. intros Hm. rewrite Hm. apply footprint_refl. Qed.

Lemma footprint_bind {A B} (m : M A) (k : A → M B) (w : World) :
  footprint w (m w).2 → (∀ a w', footprint w' (k a w').2) →
  footprint w (bind m k w).2.
Proof.
  intros Hm Hk. unfold bind. destruct (m w) as [[e | a] w1]; [done |].
  eapply footprint_trans; [apply Hm | apply Hk].
Qed.

Lemma footprint_print (l : Line) (w : World) : footprint w (print l w).2.
Proof. split; [done |]. split; [done |]. by exists [l]. Qed.

Lemma footprint_to_csv (w : World) : footprint w (df_to_csv "trading_signals.csv" w).2.
Proof.
  unfold df_to_csv. destruct (csv_table (df w)); [apply footprint_refl |].
  split; [done |]. split.
  - intros path Hpath. simpl. by rewrite lookup_insert_ne.
  - exists []. simpl. by rewrite app_nil_r.
Qed.

(** X20. Whatever the solver returns and whether the run ends or raises, [main]
    leaves the frame as it was, touches no file but the export, and only
    adds lines to the console. *)
Theorem main_footprint (solve_bqm : BQM → Res SampleSet) (w : World) :
  footprint w (main solve_bqm w).2.
Proof.
  unfold main.
  apply footprint_bind; [apply footprint_pure_read, pure_read_create_bqm |].
  intros bqm w1.
  apply footprint_bind; [apply footprint_pure_read, pure_read_lift |].
  intros response w2.
  apply footprint_bind;
    [apply footprint_pure_read, pure_read_get_optimal_buy_prices |].
  intros prices w3. apply footprint_bind; [apply footprint_print |].
  intros _ w4. apply footprint_bind; [apply footprint_pure_read, pure_read_lift |].
  intros best w5. apply footprint_bind; [apply footprint_print |].
  intros _ w6. apply footprint_bind; [apply footprint_to_csv |].
  intros _ w7. apply footprint_print.
Qed.

(** ** Selected prices *)

Lemma elem_of_selected_prices (closes : list float) (sols : list Solution) (p : float) :
  p ∈ selected_prices closes sols ↔
  ∃ a e i, (a, e) ∈ sols ∧ (Buy, i, 1%Z) ∈ a ∧ closes !! i = Some p.
Proof.
  unfold selected_prices, selected_in. rewrite list_elem_of_In, in_flat_map. split.
  - intros ([a e] & Hsol & Hp). apply in_flat_map in Hp as ([[k i] v] & Hentry & Hp).
    destruct k; simpl in Hp; [| done]. destruct (Z.eqb_spec v 1) as [-> |]; [| done].
    destruct (closes !! i) as [c |] eqn:Hc; simpl in Hp; [| done].
    destruct Hp as [<- | []]. exists a, e, i. by rewrite !list_elem_of_In.
  - intros (a & e & i & Hsol & Hentry & Hp). exists (a, e).
    split; [by apply list_elem_of_In |]. apply in_flat_map. exists (Buy, i, 1%Z).
    split; [by apply list_elem_of_In |]. simpl. rewrite Hp. by left.
Qed.

Lemma selected_prices_no_nan (closes : list float) (sols : list Solution) :
  no_nan closes → no_nan (selected_prices closes sols).
Proof.
  intros Hnan. apply Forall_forall. intros p Hp.
  apply elem_of_selected_prices in Hp as (a & e & i & _ & _ & Hp).
  eapply (proj1 (Forall_forall _ _) Hnan), list_elem_of_lookup_2, Hp.
Qed.

(** X16. The best entry price does not depend on the order in which the solver
    returns its solutions: for two responses holding the same solutions in
    different orders, the extracted lists are permutations of each other and
    their minima are equal as numbers. *)
Theorem best_price_order_independent
    (d : DataFrame) (sols sols' : list Solution) (w : World) (m m' : float) :
  df w = d → no_nan (Close d) → selected_in_frame (length (Close d)) sols →
  sols ≡ₚ sols' →
  ∃ l l',
    get_optimal_buy_prices (response_of sols) w = (inr l, w) ∧
    get_optimal_buy_prices (response_of sols') w = (inr l', w) ∧
    l ≡ₚ l' ∧
    (py_min l = inr m → py_min l' = inr m' →
     (m <=? m')%float = true ∧ (m' <=? m)%float = true).
Proof.
  intros Hw Hnan Hin Hperm.
  assert (Hin' : selected_in_frame (length (Close d)) sols').
  { unfold selected_in_frame. by rewrite <- Hperm. }
  destruct (get_optimal_buy_prices_spec d sols Hin w Hw) as (l & El & <-).
  destruct (get_optimal_buy_prices_spec d sols' Hin' w Hw) as (l' & El' & <-).
  assert (Hl : selected_prices (Close d) sols ≡ₚ selected_prices (Close d) sols')
    by (by apply Permutation_flat_map).
  eexists _, _. repeat split; try done.
  - destruct (selected_prices (Close d) sols) as [| x l] eqn:E; [done |].
    destruct (py_min_spec (x :: l)) as (m0 & Em0 & Hm0 & Hleast0);
      [rewrite <- E; by apply selected_prices_no_nan | done |].
    destruct (selected_prices (Close d) sols') as [| x' l'] eqn:E'; [done |].
    destruct (py_min_spec (x' :: l')) as (m1 & Em1 & Hm1 & Hleast1);
      [rewrite <- E'; by apply selected_prices_no_nan | done |].
    assert (m0 = m) as -> by congruence. assert (m1 = m') as -> by congruence.
    apply Hleast0. by rewrite Hl.
  - destruct (selected_prices (Close d) sols) as [| x l] eqn:E; [done |].
    destruct (py_min_spec (x :: l)) as (m0 & Em0 & Hm0 & Hleast0);
      [rewrite <- E; by apply selected_prices_no_nan | done |].
    destruct (selected_prices (Close d) sols') as [| x' l'] eqn:E'; [done |].
    destruct (py_min_spec (x' :: l')) as (m1 & Em1 & Hm1 & Hleast1);
      [rewrite <- E'; by apply selected_prices_no_nan | done |].
    assert (m0 = m) as -> by congruence. assert (m1 = m') as -> by congruence.
    apply Hleast1. by rewrite <- Hl.
Qed.

Lemma best_price_order_independent_witness :
  let s1 : Solution := ([(Buy, 1, 1%Z); (Buy, 13, 1%Z)], (-17.52)%float) in
  let s2 : Solution := ([(Buy, 3, 1%Z)], (-8.46)%float) in
  ∃ l l',
    get_optimal_buy_prices (response_of [s1; s2]) initial_world = (inr l, initial_world) ∧
    get_optimal_buy_prices (response_of [s2; s1]) initial_world = (inr l', initial_world) ∧
    l ≡ₚ l' ∧
    (py_min l = inr 8.46%float → py_min l' = inr 8.46%float →
     (8.46 <=? 8.46)%float = true ∧ (8.46 <=? 8.46)%float = true).
Proof.
  intros s1 s2.
  apply (best_price_order_independent script_df [s1; s2] [s2; s1] initial_world).
  - reflexivity.
  - repeat constructor.
  - repeat constructor; simpl; lia.
  - apply perm_swap.
Defined.

(** ** The builder and the extractor together *)

Lemma sample_decode (P : Kind → nat → Prop) (s : Sample) :
  (∀ k v, (k, v) ∈ s → ∃ kind i, k = var_name kind i ∧ P kind i) →
  ∃ a, s = sample_of a ∧ Forall (fun entry : Kind * nat * Z => P entry.1.1 entry.1.2) a.
Proof.
  induction s as [| [k v] s IH]; intros Hs.
  - by exists [].
  - destruct (Hs k v) as (kind & i & -> & Hi); [apply list_elem_of_here |].
    destruct IH as (a & -> & Ha).
    { intros k' v' Hk'. by apply (Hs k' v'), list_elem_of_further. }
    exists ((kind, i, v) :: a). split; [done | by constructor].
Qed.

Lemma response_decode (P : Kind → nat → Prop) (response : SampleSet) :
  (∀ s e k v, (s, e) ∈ response → (k, v) ∈ s → ∃ kind i, k = var_name kind i ∧ P kind i) →
  ∃ sols, response = response_of sols ∧
    Forall (fun sol : Solution =>
      Forall (fun entry : Kind * nat * Z => P entry.1.1 entry.1.2) sol.1) sols.
Proof.
  induction response as [| [s e] response IH]; intros Hr.
  - by exists [].
  - destruct (sample_decode P s) as (a & -> & Ha).
    { intros k v Hk. apply (Hr s e k v); [apply list_elem_of_here | done]. }
    destruct IH as (sols & -> & Hsols).
    { intros s' e' k v Hs' Hk. apply (Hr s' e' k v); [by apply list_elem_of_further | done]. }
    exists ((a, e) :: sols). split; [done | by constructor].
Qed.

(** X15. The extractor never raises on a response over the variables of the model
    the builder made from the same frame, whatever values the variables
    take; and every price it returns is the close of a row from 1 on that is
    flagged for buying. *)
Theorem extractor_total_on_model_variables
    (d : DataFrame) (b : BQM) (response : SampleSet) (w : World) :
  wf_df d → df w = d → create_bqm w = (inr b, w) →
  (∀ s e k v, (s, e) ∈ response → (k, v) ∈ s → is_Some (linear b !! k)) →
  ∃ prices,
    get_optimal_buy_prices response w = (inr prices, w) ∧
    ∀ p, p ∈ prices →
         ∃ i, 1 ≤ i < len d ∧ Buy_Signal d !! i = Some true ∧ Close d !! i = Some p.
Proof.
  intros Hwf Hw Hb Hkeys.
  destruct (create_bqm_spec d Hwf w Hw) as (b' & Eb & Hl & _).
  assert (b' = b) as -> by congruence.
  destruct (response_decode
              (fun kind i => 1 ≤ i < len d ∧ (kind = Buy → Buy_Signal d !! i = Some true))
              response) as (sols & -> & Hsols).
  { intros s e k v Hs Hk. destruct (Hkeys s e k v Hs Hk) as [x Hx].
    apply Hl in Hx as [(i & Hi & -> & Hflag & _) | (i & Hi & -> & _)];
      apply range_elem in Hi; [exists Buy, i | exists Sell, i];
      (split; [done | split; [done | by intros]]). }
  assert (Hin : selected_in_frame (length (Close d)) sols).
  { unfold selected_in_frame. eapply Forall_impl; [apply Hsols |].
    intros sol Hsol. eapply Forall_impl; [apply Hsol |].
    intros [[k i] v] [Hi _] _. destruct Hwf as (Hc & _). unfold entry_index. simpl in *. lia. }
  destruct (get_optimal_buy_prices_spec d sols Hin w Hw) as (l & El & <-).
  eexists. split; [done |]. intros p Hp.
  apply elem_of_selected_prices in Hp as (a & e & i & Hsol & Hentry & Hp).
  apply (proj1 (Forall_forall _ _) Hsols) in Hsol.
  apply (proj1 (Forall_forall _ _) Hsol) in Hentry as [Hi Hflag].
  exists i. split; [done |]. split; [by apply Hflag | done].
Qed.

Lemma extractor_total_on_model_variables_witness :
  ∃ prices,
    get_optimal_buy_prices
      [([("buy_1"%string, 1%Z); ("buy_3"%string, 0%Z)], 0%float);
       ([("buy_13"%string, 1%Z)], 0%float)] initial_world = (inr prices, initial_world) ∧
    ∀ p, p ∈ prices →
         ∃ i, 1 ≤ i < len script_df ∧ Buy_Signal script_df !! i = Some true ∧
              Close script_df !! i = Some p.
Proof.
  apply (extractor_total_on_model_variables script_df script_bqm).
  - by repeat split.
  - reflexivity.
  - apply create_script_bqm.
  - intros s e k v Hs Hk.
    apply list_elem_of_In in Hs. simpl in Hs.
    destruct Hs as [[= <- <-] | [[= <- <-] | []]];
      apply list_elem_of_In in Hk; simpl in Hk;
      repeat (destruct Hk as [[= <- <-] | Hk]); try done;
      eexists; vm_compute; reflexivity.
Defined.

(** X8. The signal columns: over a table whose two columns have the same length
    [N], the frame is built with [N] rows, its buy flag is true exactly at
    the odd indices and its sell flag is false at every index. *)
Theorem signal_columns (dates : list string) (closes : list float) :
  length dates = length closes →
  ∃ d, make_df dates closes = inr d ∧ wf_df d ∧ len d = length closes ∧
       Date d = dates ∧ Close d = closes ∧
       ∀ i, i < length closes →
            Buy_Signal d !! i = Some (Nat.odd i) ∧ Sell_Signal d !! i = Some false.
Proof.
  intros Hlen. unfold make_df. destruct (decide (length dates = length closes)); [| done].
  eexists. split; [reflexivity |]. rewrite Hlen.
  split; [| split; [done | split; [done | split; [done |]]]].
  - unfold wf_df, len, buy_signals, sell_signals, range. simpl.
    by rewrite Hlen, !length_map, !length_seq, Nat.sub_0_r.
  - intros i Hi. simpl. split.
    + apply buy_signals_lookup. split; [done |]. rewrite <- Nat.odd_spec.
      by destruct (Nat.odd i).
    + by apply sell_signals_lookup.
Qed.

Lemma signal_columns_witness :
  ∃ d, make_df data_Date data_Close = inr d ∧ wf_df d ∧ len d = length data_Close ∧
       Date d = data_Date ∧ Close d = data_Close ∧
       ∀ i, i < length data_Close →
            Buy_Signal d !! i = Some (Nat.odd i) ∧ Sell_Signal d !! i = Some false.
Proof. by apply (signal_columns data_Date data_Close). Defined.

Lemma all_selected_best_entry_price_witness :
  ∃ b prices best,
    create_bqm initial_world = (inr b, initial_world) ∧
    get_optimal_buy_prices [(all_selected b, 0%float)] initial_world
      = (inr prices, initial_world) ∧
    py_min prices = inr best ∧
    (∃ i, Nat.Odd i ∧ data_Close !! i = Some best) ∧
    ∀ i c, Nat.Odd i → data_Close !! i = Some c → (best <=? c)%float = true.
Proof.
  apply (all_selected_best_entry_price data_Date data_Close script_df initial_world);
    [reflexivity | reflexivity | repeat constructor | simpl; lia].
Defined.
